(** * Item curation (items.py): a shallow embedding and its properties

    The development follows [src/items.py]: the class [Item], whose
    constructor assembles the text of a product record, gates it on a
    character and a token threshold, truncates it and renders a prompt.

    - Python [str] values are lists of Unicode code points ([text]).
    - The record handed to [Item(...)] is a Python [dict]: a finite map from
      key strings to values ([gmap string value]).
    - Exceptions are values of [exn]. Code that can raise runs in [result];
      the constructor runs in [M], which also logs every call to the
      tokenizer.
    - A [float] is a binary float of [SpecFloat]; [price] stands for the
      value of [float(price)].
    - The tokenizer ([AutoTokenizer.from_pretrained(BASE_MODEL)]), the
      Unicode digit table behind [str.isdigit] and [repr] of a list are not
      part of the repository: they are Section variables, and the examples
      instantiate them.

    The file has the embedding first (built-ins, then [Item]), then the
    vocabulary of the statements and the examples, then the facts. *)

From Stdlib Require Import ZArith Lia Ascii String SpecFloat DecimalString.
From stdpp Require Import base option list strings gmap.
From Equations Require Import Equations.

Local Open Scope Z_scope.
Local Open Scope nat_scope.

(** ** Text *)

Definition char := N.
Definition text := list char.

(** A literal of the source, as the code points of its (ASCII) characters. *)
Definition T (s : string) : text := N_of_ascii <$> String.list_ascii_of_string s.

Definition SP : char := 32%N.
Definition NL : char := 10%N.
Definition COMMA : char := 44%N.

(** ** Python built-ins used by the source *)

Module Py.

(** [str.isspace] / the regular expression class [\s] on [str] patterns /
    the characters [str.strip()] removes: CPython's
    [_PyUnicode_IsWhitespace]. *)
Definition isspace (c : char) : bool :=
  ((9 <=? c) && (c <=? 13) || (28 <=? c) && (c <=? 32) || (c =? 133) || (c =? 160)
   || (c =? 5760) || (8192 <=? c) && (c <=? 8202) || (c =? 8232) || (c =? 8233)
   || (c =? 8239) || (c =? 8287) || (c =? 12288))%N.

(** [sep.join(parts)] *)
Fixpoint join (sep : text) (parts : list text) : text :=
  match parts with
  | [] => []
  | [p] => p
  | p :: ps => p ++ sep ++ join sep ps
  end.

(** [s.startswith(pat)], returning what follows [pat]. *)
Fixpoint strip_prefix (pat s : text) : option text :=
  match pat, s with
  | [], _ => Some s
  | p :: pat', c :: s' => if (p =? c)%N then strip_prefix pat' s' else None
  | _ :: _, [] => None
  end.

(** [s.partition(sep)]: the text before and after the first (leftmost)
    occurrence of [sep], or [None] when [sep] does not occur. *)
Fixpoint partition (sep s : text) : option (text * text) :=
  match strip_prefix sep s with
  | Some rest => Some ([], rest)
  | None =>
      match s with
      | [] => None
      | c :: s' => (λ p, (c :: p.1, p.2)) <$> partition sep s'
      end
  end.

Lemma strip_prefix_app pat s r : strip_prefix pat s = Some r ↔ s = pat ++ r.
Proof.
  revert s; induction pat as [|p pat IH]; intros [|c s]; simpl.
  - split; [intros [= <-]|intros <-]; done.
  - split; [intros [= <-]|intros <-]; done.
  - split; done.
  - destruct (N.eqb_spec p c) as [->|Hne].
    + rewrite IH. split; [intros ->|intros [= ->]]; done.
    + split; [done|intros [= ? ?]; done].
Qed.

Lemma partition_app sep s a b : partition sep s = Some (a, b) → s = a ++ sep ++ b.
Proof.
  revert a; induction s as [|c s IH]; intros a; simpl.
  - destruct (strip_prefix sep []) eqn:E; [|done].
    intros [= <- <-]. by apply strip_prefix_app in E.
  - destruct (strip_prefix sep (c :: s)) eqn:E.
    + intros [= <- <-]. by apply strip_prefix_app in E.
    + destruct (partition sep s) as [[a' b']|] eqn:E'; simpl; [|done].
      intros [= <- <-]. by rewrite (IH a' eq_refl).
Qed.

Lemma partition_shorter o sep s a b :
  partition (o :: sep) s = Some (a, b) → length b < length s.
Proof. intros ->%partition_app. rewrite !length_app. simpl. lia. Qed.

Definition inspect {A} (x : A) : { y : A | x = y } := exist _ x eq_refl.

(** [s.replace(old, new)] for a non-empty [old = o :: old']: the
    non-overlapping occurrences of [old], found from left to right, are
    each replaced by [new]. *)
Equations? replace_from (o : char) (old' new s : text) : text by wf (length s) lt :=
  replace_from o old' new s with inspect (partition (o :: old') s) := {
    | exist _ (Some p) E => p.1 ++ new ++ replace_from o old' new p.2
    | exist _ None _ => s }.
Proof. by apply partition_shorter in E. Qed.

(** [s.replace(old, new)]; with the empty [old], Python inserts [new]
    before every character and at the end. *)
Definition replace (old new s : text) : text :=
  match old with
  | [] => new ++ concat ((λ c, c :: new) <$> s)
  | o :: old' => replace_from o old' new s
  end.

(** [s.split(sep)] for a non-empty [sep = o :: sep']. *)
Equations? split_from (o : char) (sep' s : text) : list text by wf (length s) lt :=
  split_from o sep' s with inspect (partition (o :: sep') s) := {
    | exist _ (Some p) E => p.1 :: split_from o sep' p.2
    | exist _ None _ => [s] }.
Proof. by apply partition_shorter in E. Qed.

(** [s.split(sep)]. Python raises [ValueError] on the empty separator;
    both call sites of the source pass a non-empty literal, and the empty
    separator is given the empty list here. *)
Definition split (sep s : text) : list text :=
  match sep with
  | [] => []
  | o :: sep' => split_from o sep' s
  end.

Fixpoint lstrip (s : text) : text :=
  match s with
  | c :: s' => if isspace c then lstrip s' else s
  | [] => []
  end.

Definition rstrip (s : text) : text := reverse (lstrip (reverse s)).

(** [s.strip()] *)
Definition strip (s : text) : text := rstrip (lstrip s).

(** [str(n)] for an [int]. *)
Definition str_int (n : Z) : text := T (NilZero.string_of_int (Z.to_int n)).

End Py.

(** ** Exceptions, and the effects of the constructor *)

Inductive exn :=
| KeyError (key : string)
| IndexError
| TypeError
| AttributeError
| ValueError
| OverflowError.

Inductive result (A : Type) :=
| Ok (a : A)
| Raise (e : exn).
Arguments Ok {A} a.
Arguments Raise {A} e.

(** Code that may raise and touches nothing else runs in [result]. *)
#[global] Instance result_ret : MRet result := λ A a, Ok a.
#[global] Instance result_bind : MBind result := λ A B k m,
  match m with
  | Ok a => k a
  | Raise e => Raise e
  end.

Definition token := Z.

(** A call to the tokenizer, as the constructor makes them. *)
Inductive event :=
| Encode (s : text)
| Decode (ids : list token).

(** A computation that may raise and that appends to the log of tokenizer
    calls. *)
Definition M (A : Type) : Type := list event → result A * list event.

Definition lift {A} (r : result A) : M A := λ log, (r, log).

(** [x ← m; k] and [mret] are stdpp's notations. *)
#[global] Instance M_ret : MRet M := λ A a log, (Ok a, log).
#[global] Instance M_bind : MBind M := λ A B k m log,
  match m log with
  | (Ok a, log') => k a log'
  | (Raise e, log') => (Raise e, log')
  end.

(** ** Values of the input record *)

(** What a field of the record can hold: [None], a [str], or a list of
    [str]. *)
Inductive value :=
| VNone
| VStr (s : text)
| VList (l : list text).

(** [bool(v)], as [if v:] tests it. *)
Definition truthy (v : value) : bool :=
  match v with
  | VNone => false
  | VStr s => negb (bool_decide (s = []))
  | VList l => negb (bool_decide (l = []))
  end.

(** [data[key]] *)
Definition getitem (data : gmap string value) (key : string) : result value :=
  match data !! key with
  | Some v => Ok v
  | None => Raise (KeyError key)
  end.

(** [sep.join(v)]: a list of [str] is joined, a [str] is iterated character
    by character, [None] is not iterable. *)
Definition join_value (sep : text) (v : value) : result text :=
  match v with
  | VList l => Ok (Py.join sep l)
  | VStr s => Ok (Py.join sep ((λ c, [c]) <$> s))
  | VNone => Raise TypeError
  end.

(** ** Floats and [round] *)

Definition round_half_even (m d : Z) : Z :=
  let q := (m / d)%Z in
  let r := (m mod d)%Z in
  if (2 * r <? d)%Z then q
  else if (d <? 2 * r)%Z then (q + 1)%Z
  else if Z.even q then q else (q + 1)%Z.

(** [round(x)] of a [float] with no [ndigits]: the nearest [int], ties to
    the even one; [inf] and [nan] raise. *)
Definition py_round (x : spec_float) : result Z :=
  match x with
  | S754_zero _ => Ok 0%Z
  | S754_infinity _ => Raise OverflowError
  | S754_nan => Raise ValueError
  | S754_finite s m e =>
      let v := match e with
               | Zneg k => round_half_even (Zpos m) (2 ^ Zpos k)
               | _ => (Zpos m * 2 ^ e)%Z
               end in
      Ok (if s then (- v)%Z else v)
  end.

(** ** Module constants *)

Definition MIN_TOKENS : nat := 150.
Definition MAX_TOKENS : nat := 160.
Definition MIN_CHARS : nat := 300.
Definition CEILING_CHARS : nat := MAX_TOKENS * 7.

Definition PREFIX : text := T "Price is $".
Definition QUESTION : text := T "How much does this cost to the nearest dollar?".
Definition REMOVALS : list text :=
  [ T "Manufacturer";
    T "Language";
    T "Best Sellers Rank";
    T "Is Discontinued By Manufacturer" ].

(** ** The class [Item] *)

Record Item := mkItem {
  title : value;
  price : spec_float;
  category : option text;
  token_count : nat;
  details : value;
  prompt : option text;
  include : bool;
  main_category : value
}.

Definition set_details (v : value) (self : Item) : Item :=
  mkItem (title self) (price self) (category self) (token_count self) v
         (prompt self) (include self) (main_category self).
Definition set_prompt (p : option text) (self : Item) : Item :=
  mkItem (title self) (price self) (category self) (token_count self) (details self)
         p (include self) (main_category self).
Definition set_token_count (n : nat) (self : Item) : Item :=
  mkItem (title self) (price self) (category self) n (details self)
         (prompt self) (include self) (main_category self).
Definition set_include (b : bool) (self : Item) : Item :=
  mkItem (title self) (price self) (category self) (token_count self) (details self)
         (prompt self) b (main_category self).

(** The object as lines 39 to 46 of [Item.__init__] leave it. *)
Definition blank (title : value) (price : spec_float) (main_category : value) : Item :=
  mkItem title price None 0 VNone None false main_category.

(** The characters of the class [[:\[\]{}\s]] of [scrub]'s regular
    expression. *)
Definition in_class (c : char) : bool :=
  ((c =? 58) || (c =? 91) || (c =? 93) || (c =? 123) || (c =? 125))%N || Py.isspace c.

(** [re.sub(r"[:\[\]{}\s]", " ", stuff)]: the class matches one character
    at a time, and each match becomes one space. *)
Definition re_sub_class (stuff : text) : text :=
  (λ c, if in_class c then SP else c) <$> stuff.

Section Item.

(** [Item.tokenizer.encode(text, add_special_tokens=False)] and
    [Item.tokenizer.decode(tokens)]. *)
Variable encode : text → list token.
Variable decode : list token → text.
(** [char.isdigit()], from the interpreter's Unicode database. *)
Variable isdigit : char → bool.
(** [str(l)] of a list, as an f-string renders it. *)
Variable repr_list : list text → text.

Definition tokenizer_encode (s : text) : M (list token) :=
  λ log, (Ok (encode s), log ++ [Encode s]).
Definition tokenizer_decode (ids : list token) : M text :=
  λ log, (Ok (decode ids), log ++ [Decode ids]).

(** [f"{v}"] *)
Definition format_value (v : value) : text :=
  match v with
  | VNone => T "None"
  | VStr s => s
  | VList l => repr_list l
  end.

(** [Item.scrub_details]: [self.details.replace(remove, "")] for each
    removal in turn; only a [str] has [replace]. *)
Definition scrub_details (self : Item) : result text :=
  match details self with
  | VStr d => Ok (foldl (λ details remove, Py.replace remove [] details) d REMOVALS)
  | _ => Raise AttributeError
  end.

(** The test of the list comprehension of [scrub]. *)
Definition keep_word (word : text) : bool :=
  (length word <? 7) || negb (existsb isdigit word).

(** [Item.scrub] on a [str]. *)
Definition scrub (stuff : text) : text :=
  let stuff := Py.strip (re_sub_class stuff) in
  let stuff := Py.replace (T ",,") (T ",")
                 (Py.replace (T ",,,") (T ",")
                    (Py.replace (T " ,") (T ",") stuff)) in
  let words := Py.split (T " ") stuff in
  let select := filter (λ word, keep_word word = true) words in
  Py.join (T " ") select.

(** [Item.scrub] on any value: [re.sub] accepts only a [str]. *)
Definition scrub_value (stuff : value) : result text :=
  match stuff with
  | VStr s => Ok (scrub s)
  | _ => Raise TypeError
  end.

(** [Item.make_prompt]; [p] is [self.prompt], stored once both
    assignments to it are done. *)
Definition make_prompt (self : Item) (text : text) : M Item :=
  let p := QUESTION ++ [NL; NL] ++ T "Main_Category: " ++ format_value (main_category self)
             ++ [NL; NL] ++ text ++ [NL; NL] in
  rounded ← lift (py_round (price self));
  let p := p ++ PREFIX ++ Py.str_int rounded ++ T ".00" in
  let self := set_prompt (Some p) self in
  ids ← tokenizer_encode p;
  mret (set_token_count (length ids) self).

(** Lines 77 to 87 of [Item.parse]: the assembled [contents], with
    [self.details] set on the way. The tokenizer is not called here. *)
Definition parse_contents (self : Item) (data : gmap string value) : result (Item * text) :=
  description ← getitem data "description";
  contents ← join_value [NL] description;
  let contents := if bool_decide (contents = []) then contents else contents ++ [NL] in
  features ← getitem data "features";
  features ← join_value [NL] features;
  let contents := if bool_decide (features = []) then contents
                  else contents ++ features ++ [NL] in
  details ← getitem data "details";
  let self := set_details details self in
  if truthy details
  then scrubbed ← scrub_details self;
       mret (self, contents ++ scrubbed ++ [NL])
  else mret (self, contents).

(** [Item.parse] *)
Definition parse (self : Item) (data : gmap string value) : M Item :=
  sc ← lift (parse_contents self data);
  let self := sc.1 in
  let contents := sc.2 in
  if MIN_CHARS <? length contents then
    let contents := take CEILING_CHARS contents in
    scrubbed_title ← lift (scrub_value (title self));
    let text := scrubbed_title ++ [NL] ++ scrub contents in
    tokens ← tokenizer_encode text;
    if MIN_TOKENS <? length tokens then
      let tokens := take MAX_TOKENS tokens in
      text ← tokenizer_decode tokens;
      self ← make_prompt self text;
      mret (set_include true self)
    else mret self
  else mret self.

(** [Item.__init__]; [price] is the value of [float(price)]. *)
Definition init (data : gmap string value) (price : spec_float) : M Item :=
  title ← lift (getitem data "title");
  main_category ← lift (getitem data "main_category");
  parse (blank title price main_category) data.

(** [Item.test_prompt] *)
Definition test_prompt (self : Item) : result text :=
  match prompt self with
  | Some p =>
      match Py.split PREFIX p with
      | first :: _ => Ok (first ++ PREFIX)
      | [] => Raise IndexError
      end
  | None => Raise AttributeError
  end.

End Item.

(** * Vocabulary of the statements *)

(** [pat in s]: [pat] occurs in [s] as a substring. *)
Definition occurs (pat s : text) : Prop := ∃ a b, s = a ++ pat ++ b.

(** A character [scrub] lets through: outside the class of the regular
    expression, or the space that replaces the class. *)
Definition tidy (c : char) : Prop := in_class c = true → c = SP.

(** The loop of [scrub_details], for any list of removals. *)
Definition delete_all (removals : list text) (d : text) : text :=
  foldl (λ details remove, Py.replace remove [] details) d removals.

(** A text cut into the parts that are kept and the stretches that are
    deleted: the first kept part, then each deleted stretch with the kept
    part that follows it. *)
Definition cutting : Type := text * list (text * text).

(** The text that was cut. *)
Definition whole (c : cutting) : text :=
  c.1 ++ concat ((λ gp, gp.1 ++ gp.2) <$> c.2).

(** What the deletions leave of it: the kept parts, put together. *)
Definition kept (c : cutting) : text := c.1 ++ concat (snd <$> c.2).

Definition kept_parts (c : cutting) : list text := c.1 :: (snd <$> c.2).

Definition deleted_parts (c : cutting) : list text := fst <$> c.2.

(** A stretch of text that deleting occurrences of the strings [removals]
    takes away: one of the strings, or such a stretch with another such
    stretch put inside it or next to it. *)
Inductive Removed (removals : list text) : text → Prop :=
| Removed_one r : r ∈ removals → Removed removals r
| Removed_ins a g b :
    Removed removals (a ++ b) → Removed removals g → Removed removals (a ++ g ++ b).

(** Two cuttings side by side, with the stretch [g] deleted between them. *)
Definition glue (c1 : cutting) (g : text) (c2 : cutting) : cutting :=
  (c1.1, c1.2 ++ (g, c2.1) :: c2.2).

(** What a list of fragments adds to [contents]: the fragments joined by
    newlines and a closing newline, or nothing when that text is empty. *)
Definition text_block (fragments : list text) : text :=
  let s := Py.join [NL] fragments in
  if bool_decide (s = []) then [] else s ++ [NL].

(** [l'] has the fragments of [l], each possibly longer, and possibly more
    fragments after them. *)
Inductive extends : list text → list text → Prop :=
| extends_nil l' : extends [] l'
| extends_cons x x' l l' : x `prefix_of` x' → extends l l' → extends (x :: l) (x' :: l').

(** The words of [scrub] before the list comprehension filters them. *)
Definition raw_words (x : text) : list text :=
  Py.split (T " ")
    (Py.replace (T ",,") (T ",")
       (Py.replace (T ",,,") (T ",")
          (Py.replace (T " ,") (T ",") (Py.strip (re_sub_class x))))).

Section Statements.
Variable encode : text → list token.
Variable decode : list token → text.
Variable isdigit : char → bool.
Variable repr_list : list text → text.

(** The words [scrub] joins, for the input [x]. *)
Definition scrub_words (x : text) : list text :=
  filter (λ word, keep_word isdigit word = true) (raw_words x).

(** The f-string of line 91: what the tokenizer is given. *)
Definition candidate_text (title contents : text) : text :=
  scrub isdigit title ++ [NL] ++ scrub isdigit (take CEILING_CHARS contents).

(** [self.prompt] after line 104. *)
Definition rendered (main_category : value) (body : text) (rounded : Z) : text :=
  QUESTION ++ [NL; NL] ++ T "Main_Category: " ++ format_value repr_list main_category
    ++ [NL; NL] ++ body ++ [NL; NL] ++ PREFIX ++ Py.str_int rounded ++ T ".00".

(** The three ways [Item(data, price)] returns an object, with the calls
    to the tokenizer each one makes. *)
Inductive Built (data : gmap string value) (price : spec_float) (log0 : list event) :
  Item → list event → Prop :=
| Built_short t mc self contents :
    data !! "title" = Some t →
    data !! "main_category" = Some mc →
    parse_contents (blank t price mc) data = Ok (self, contents) →
    length contents ≤ MIN_CHARS →
    Built data price log0 self log0
| Built_few t mc self contents ttl :
    data !! "title" = Some t →
    data !! "main_category" = Some mc →
    parse_contents (blank t price mc) data = Ok (self, contents) →
    MIN_CHARS < length contents →
    t = VStr ttl →
    length (encode (candidate_text ttl contents)) ≤ MIN_TOKENS →
    Built data price log0 self (log0 ++ [Encode (candidate_text ttl contents)])
| Built_accepted t mc self contents ttl rounded :
    data !! "title" = Some t →
    data !! "main_category" = Some mc →
    parse_contents (blank t price mc) data = Ok (self, contents) →
    MIN_CHARS < length contents →
    t = VStr ttl →
    MIN_TOKENS < length (encode (candidate_text ttl contents)) →
    py_round price = Ok rounded →
    let ids := take MAX_TOKENS (encode (candidate_text ttl contents)) in
    let p := rendered mc (decode ids) rounded in
    Built data price log0
      (set_include true (set_token_count (length (encode p)) (set_prompt (Some p) self)))
      (log0 ++ [Encode (candidate_text ttl contents); Decode ids; Encode p]).

End Statements.

(** * Examples *)

(** A tokenizer with one token for each code point, an [isdigit] for the
    ASCII digits and a [repr] that is never called, to run the constructor
    on examples. *)
Definition char_encode (s : text) : list token := Z.of_N <$> s.
Definition char_decode (ids : list token) : text := Z.to_N <$> ids.
Definition ascii_isdigit (c : char) : bool := ((48 <=? c) && (c <=? 57))%N.
Definition no_repr (l : list text) : text := [].

Definition example_title : text := T "Dell Laptop 14 inches".
Definition example_category : text := T "Electronics".

(** A record with the given [description], no [features] and [details]
    set to [None]. *)
Definition example_record (description : list text) : gmap string value :=
  <["title" := VStr example_title]>
    (<["main_category" := VStr example_category]>
       (<["description" := VList description]>
          (<["features" := VList []]>
             (<["details" := VNone]> ∅)))).

(** 122.5 *)
Definition example_price : spec_float := S754_finite false 245 (-1).

Definition example_run (data : gmap string value) : result Item * list event :=
  init char_encode char_decode ascii_isdigit no_repr data example_price [].

(** One word of 900 characters, with no digit in it. *)
Definition long_word : text := concat (replicate 300 (T "ab-")).

Definition example_self : Item :=
  blank (VStr example_title) example_price (VStr example_category).
Definition example_contents : text := long_word ++ [NL].

(** [description = [long_word]]: accepted. *)
Definition example_item : Item :=
  Eval vm_compute in
    match (example_run (example_record [long_word])).1 with
    | Ok item => item
    | Raise _ => example_self
    end.
Definition example_log : list event :=
  Eval vm_compute in (example_run (example_record [long_word])).2.

(** No text at all: rejected. *)
Definition example_rejected : Item :=
  Eval vm_compute in
    match (example_run (example_record [])).1 with
    | Ok item => item
    | Raise _ => example_self
    end.

(** One more character, a digit, at the end of the only word: [scrub]
    drops the word, and the record is rejected. *)
Definition example_longer_rejected : Item :=
  Eval vm_compute in
    match (example_run (example_record [long_word ++ T "1"])).1 with
    | Ok item => item
    | Raise _ => example_self
    end.

(** A tokenizer whose tokens are one code point or a pair of them: texts of
    more than 1000 characters are encoded in pairs, shorter ones character
    by character. [pair_decode] undoes [pair_encode]. *)
Fixpoint pairs (s : text) : list token :=
  match s with
  | c1 :: c2 :: s' => (Z.of_N c1 + 2 ^ 21 * (1 + Z.of_N c2))%Z :: pairs s'
  | [c] => [Z.of_N c]
  | [] => []
  end.
Definition pair_encode (s : text) : list token :=
  if 1000 <? length s then pairs s else Z.of_N <$> s.
Definition pair_decode (ids : list token) : text :=
  concat ((λ id, if (id <? 2 ^ 21)%Z then [Z.to_N id]
                 else [Z.to_N (id mod 2 ^ 21); Z.to_N (id / 2 ^ 21 - 1)]) <$> ids).

(** One word of 1098 characters. *)
Definition longer_word : text := concat (replicate 366 (T "ab-")).

Definition pair_run : result Item * list event :=
  init pair_encode pair_decode ascii_isdigit no_repr
    (example_record [longer_word]) example_price [].

(** * Facts about the built-ins *)

Section PyFacts.
Import Py.

Lemma replace_from_eq o old' new s :
  replace_from o old' new s =
  match partition (o :: old') s with
  | Some p => p.1 ++ new ++ replace_from o old' new p.2
  | None => s
  end.
Proof.
  rewrite replace_from_equation_1. unfold inspect.
  cut (∀ x e, replace_from_unfold_clause_1 o old' new s (x ↾ e) =
              match x with
              | Some p => p.1 ++ new ++ replace_from o old' new p.2
              | None => s
              end).
  { intros H. apply H. }
  intros [p|] e; reflexivity.
Qed.

Lemma split_from_eq o sep' s :
  split_from o sep' s =
  match partition (o :: sep') s with
  | Some p => p.1 :: split_from o sep' p.2
  | None => [s]
  end.
Proof.
  rewrite split_from_equation_1. unfold inspect.
  cut (∀ x e, split_from_unfold_clause_1 o sep' s (x ↾ e) =
              match x with
              | Some p => p.1 :: split_from o sep' p.2
              | None => [s]
              end).
  { intros H. apply H. }
  intros [p|] e; reflexivity.
Qed.

(** [partition] finds the leftmost occurrence. *)
Lemma partition_leftmost sep s a b :
  s = a ++ sep ++ b →
  ∃ a' b', partition sep s = Some (a', b') ∧ length a' ≤ length a.
Proof.
  revert s; induction a as [|c a IH]; intros s ->.
  - exists [], b. split; [|done].
    assert (strip_prefix sep ([] ++ sep ++ b) = Some b) as E
      by by apply strip_prefix_app.
    destruct sep, b; simpl in *; by rewrite ?E.
  - simpl. destruct (strip_prefix sep (c :: a ++ sep ++ b)) as [r|] eqn:E.
    + exists [], r. split; [done|simpl; lia].
    + destruct (IH _ eq_refl) as (a' & b' & -> & Hle).
      exists (c :: a'), b'. split; [done|simpl; lia].
Qed.

Lemma partition_None sep s : partition sep s = None ↔ ¬ occurs sep s.
Proof.
  split.
  - intros E (a & b & Hs). destruct (partition_leftmost _ _ _ _ Hs) as (? & ? & ? & _).
    congruence.
  - intros Hno. destruct (partition sep s) as [[a b]|] eqn:E; [|done].
    destruct Hno. exists a, b. by apply partition_app.
Qed.

Lemma replace_absent old new s : old ≠ [] → ¬ occurs old s → replace old new s = s.
Proof.
  destruct old as [|o old']; [done|]. intros _ Hno. simpl.
  rewrite replace_from_eq. by apply partition_None in Hno as ->.
Qed.

(** Every character of [s.replace(old, new)] comes from [s] or from [new]. *)
Lemma Forall_replace (P : char → Prop) old new s :
  old ≠ [] → Forall P new → Forall P s → Forall P (replace old new s).
Proof.
  destruct old as [|o old']; [done|]. intros _ Hnew. simpl.
  induction s as [s IH] using (induction_ltof1 _ (@length char)). intros Hs.
  rewrite replace_from_eq.
  destruct (partition (o :: old') s) as [[a b]|] eqn:E; [|done].
  pose proof (partition_shorter _ _ _ _ _ E) as Hlt.
  apply partition_app in E as ->.
  apply Forall_app in Hs as [Ha [_ Hb]%Forall_app].
  rewrite !Forall_app. split_and!; [done..|]. by apply IH.
Qed.

Lemma Forall_split (P : char → Prop) sep s :
  Forall P s → Forall (Forall P) (split sep s).
Proof.
  destruct sep as [|o sep']; [by constructor|]. simpl.
  induction s as [s IH] using (induction_ltof1 _ (@length char)). intros Hs.
  rewrite split_from_eq.
  destruct (partition (o :: sep') s) as [[a b]|] eqn:E; [|by repeat constructor].
  pose proof (partition_shorter _ _ _ _ _ E) as Hlt.
  apply partition_app in E as ->.
  apply Forall_app in Hs as [Ha [_ Hb]%Forall_app].
  constructor; [done|]. by apply IH.
Qed.

Lemma Forall_join (P : char → Prop) sep parts :
  Forall P sep → Forall (Forall P) parts → Forall P (join sep parts).
Proof.
  intros Hsep. induction 1 as [|p ps Hp Hps IH]; [constructor|].
  destruct ps as [|q ps]; [done|].
  change (Forall P (p ++ sep ++ join sep (q :: ps))).
  rewrite !Forall_app. by split_and!.
Qed.

Lemma Forall_lstrip (P : char → Prop) s : Forall P s → Forall P (lstrip s).
Proof.
  induction 1 as [|c s Hc Hs IH]; simpl; [constructor|].
  destruct (isspace c); [done|by constructor].
Qed.

Lemma Forall_strip (P : char → Prop) s : Forall P s → Forall P (strip s).
Proof.
  intros Hs. unfold strip, rstrip.
  apply Forall_reverse, Forall_lstrip, Forall_reverse. by apply Forall_lstrip.
Qed.

Lemma join_cons_length sep x l :
  length (join sep (x :: l)) =
  length x + match l with [] => 0 | _ => length sep + length (join sep l) end.
Proof. destruct l; simpl; rewrite ?length_app; lia. Qed.

Lemma replace_length old new s :
  old ≠ [] → length new ≤ length old → length (replace old new s) ≤ length s.
Proof.
  destruct old as [|o old']; [done|]. intros _ Hnew. unfold replace.
  induction s as [s IH] using (induction_ltof1 _ (@length char)).
  rewrite replace_from_eq.
  destruct (partition (o :: old') s) as [[a b]|] eqn:E; [|done].
  pose proof (partition_shorter _ _ _ _ _ E) as Hlt.
  apply partition_app in E as ->. specialize (IH b Hlt).
  cbn [fst snd]. rewrite !length_app in *. lia.
Qed.

Lemma replace_same_length old new s :
  old ≠ [] → length new < length old →
  length (replace old new s) = length s → ¬ occurs old s.
Proof.
  intros Hold Hnew Hlen. apply partition_None.
  pose proof (replace_length old new) as Hle.
  destruct old as [|o old']; [done|]. unfold replace in *.
  rewrite replace_from_eq in Hlen.
  destruct (partition (o :: old') s) as [[a b]|] eqn:E; [|done].
  specialize (Hle b Hold ltac:(lia)).
  apply partition_app in E as ->.
  cbn [fst snd] in Hlen. rewrite !length_app in Hlen. lia.
Qed.

Lemma split_from_cons o sep' s : ∃ w ws, split_from o sep' s = w :: ws.
Proof. rewrite split_from_eq. destruct (partition _ _); eauto. Qed.

Lemma join_filter_length (P : text → Prop) `{∀ w, Decision (P w)} sep ws :
  length (join sep (filter P ws)) ≤ length (join sep ws).
Proof.
  induction ws as [|w ws IH]; [done|].
  rewrite filter_cons. destruct (decide (P w)).
  - rewrite !join_cons_length. destruct ws as [|w' ws]; [done|].
    destruct (filter P (w' :: ws)); simpl in *; lia.
  - rewrite join_cons_length. destruct ws; simpl in *; lia.
Qed.

Lemma lstrip_length s : length (lstrip s) ≤ length s.
Proof.
  induction s as [|c s IH]; [done|]. simpl. destruct (isspace c); simpl; lia.
Qed.

Lemma lstrip_same_length s :
  length (lstrip s) = length s → lstrip s = s ∧ head s ≠ Some SP.
Proof.
  destruct s as [|c s]; [done|]. simpl.
  destruct (isspace c) eqn:E.
  - pose proof (lstrip_length s). simpl. lia.
  - intros _. split; [done|]. intros [= ->]. done.
Qed.

Lemma strip_length s : length (strip s) ≤ length s.
Proof.
  unfold strip, rstrip. rewrite length_reverse.
  etrans; [apply lstrip_length|]. rewrite length_reverse. apply lstrip_length.
Qed.

Lemma strip_same_length s :
  length (strip s) = length s →
  strip s = s ∧ head s ≠ Some SP ∧ last s ≠ Some SP.
Proof.
  unfold strip, rstrip. rewrite length_reverse. intros Hlen.
  pose proof (lstrip_length (reverse (lstrip s))) as H1.
  pose proof (lstrip_length s) as H2. rewrite length_reverse in H1.
  destruct (lstrip_same_length s) as [Hs Hhd]; [lia|]. rewrite Hs in *.
  destruct (lstrip_same_length (reverse s)) as [Hr Hlast];
    [rewrite length_reverse; lia|].
  rewrite Hr, reverse_involutive. rewrite head_reverse in Hlast. done.
Qed.

End PyFacts.

Section SplitChar.
Import Py.

Lemma partition_char_first c w r : c ∉ w → partition [c] (w ++ c :: r) = Some (w, r).
Proof.
  induction w as [|x w IH]; simpl.
  - by rewrite N.eqb_refl.
  - intros [Hx Hw]%not_elem_of_cons.
    destruct (N.eqb_spec c x) as [->|_]; [done|]. by rewrite IH.
Qed.

Lemma partition_char_absent c w : c ∉ w → partition [c] w = None.
Proof.
  intros Hc. apply partition_None. intros (a & b & ->).
  apply Hc. rewrite !elem_of_app, list_elem_of_singleton. auto.
Qed.

Lemma partition_char_before c s a b : partition [c] s = Some (a, b) → c ∉ a.
Proof.
  revert a; induction s as [|x s IH]; intros a; simpl; [done|].
  destruct (N.eqb_spec c x) as [->|Hne].
  - intros [= <- <-]. apply not_elem_of_nil.
  - destruct (partition [c] s) as [[a' b']|] eqn:E; simpl; [|done].
    intros [= <- <-]. apply not_elem_of_cons. split; [done|]. by apply IH.
Qed.

(** No word of [s.split(c)] holds the separator. *)
Lemma split_char_words c s : Forall (λ w, c ∉ w) (split [c] s).
Proof.
  unfold split. induction s as [s IH] using (induction_ltof1 _ (@length char)).
  cbv beta. rewrite split_from_eq.
  destruct (partition [c] s) as [[a b]|] eqn:E.
  - constructor; [by eapply partition_char_before|].
    apply IH. by eapply partition_shorter.
  - repeat constructor. intros Hin. apply partition_None in E. apply E.
    apply list_elem_of_split in Hin as (a & b & ->). by exists a, b.
Qed.

(** [c.join(ws).split(c)] gives [ws] back when no word holds [c]. *)
Lemma split_join_char c ws :
  ws ≠ [] → Forall (λ w, c ∉ w) ws → split [c] (join [c] ws) = ws.
Proof.
  intros Hne Hws. unfold split. induction Hws as [|w ws Hw Hws IH]; [done|].
  rewrite split_from_eq. destruct ws as [|w' ws].
  - simpl. by rewrite partition_char_absent.
  - change (join [c] (w :: w' :: ws)) with (w ++ c :: join [c] (w' :: ws)).
    rewrite partition_char_first by done. cbn [fst snd]. by rewrite IH.
Qed.

Lemma join_split_char c s : join [c] (split [c] s) = s.
Proof.
  unfold split. induction s as [s IH] using (induction_ltof1 _ (@length char)).
  rewrite split_from_eq.
  destruct (partition [c] s) as [[a b]|] eqn:E; [|done].
  pose proof (partition_shorter _ _ _ _ _ E) as Hlt.
  apply partition_app in E as ->. cbn [fst snd].
  destruct (split_from_cons c [] b) as (w & ws & Hw).
  specialize (IH b Hlt). rewrite Hw in *.
  change (join [c] (a :: w :: ws)) with (a ++ [c] ++ join [c] (w :: ws)).
  by rewrite IH.
Qed.

End SplitChar.

(** * [round] *)

Section RoundFacts.
Local Open Scope Z_scope.

(** [round] is within one half of its argument [m / d]. *)
Lemma round_half_even_nearest m d :
  0 < d → 2 * Z.abs (m - round_half_even m d * d) ≤ d.
Proof.
  intros Hd. unfold round_half_even.
  pose proof (Z.div_mod m d ltac:(lia)) as Hm.
  pose proof (Z.mod_pos_bound m d Hd) as Hr.
  repeat case_match; rewrite ?Z.ltb_lt, ?Z.ltb_ge in *; nia.
Qed.

(** On a tie, [round] is even. *)
Lemma round_half_even_tie m d :
  0 < d → 2 * (m mod d) = d → Z.even (round_half_even m d) = true.
Proof.
  intros Hd Htie. unfold round_half_even.
  rewrite (proj2 (Z.ltb_ge _ _)), (proj2 (Z.ltb_ge _ _)) by lia.
  destruct (Z.even (m / d)) eqn:E; [done|].
  by rewrite Z.even_add, E.
Qed.

Lemma py_round_example_tie : py_round (S754_finite false 245 (-1)) = Ok 122.
Proof. reflexivity. Qed.

End RoundFacts.

(** * [scrub] *)

Section ScrubFacts.
Variable isdigit : char → bool.

#[local] Abbreviation scrub_words := (scrub_words isdigit).

Lemma Forall_filter_keep (P : text → Prop) (ws : list text) :
  Forall P ws → Forall P (filter (λ word, keep_word isdigit word = true) ws).
Proof. rewrite !Forall_forall. intros H w [_ Hw]%list_elem_of_filter. auto. Qed.

Lemma filter_keep_all (ws : list text) :
  Forall (λ w, keep_word isdigit w = true) ws →
  filter (λ word, keep_word isdigit word = true) ws = ws.
Proof.
  induction 1 as [|w ws Hw _ IH]; [done|]. by rewrite filter_cons_True, IH.
Qed.

Lemma tidy_re_sub_class stuff : Forall tidy (re_sub_class stuff).
Proof.
  apply Forall_fmap, Forall_forall. intros c _. unfold tidy. simpl.
  destruct (in_class c) eqn:E; [done|]. by rewrite E.
Qed.

Lemma re_sub_class_tidy y : Forall tidy y → re_sub_class y = y.
Proof.
  induction 1 as [|c y Hc Hy IH]; [done|].
  unfold re_sub_class. rewrite fmap_cons. fold (re_sub_class y). rewrite IH.
  destruct (in_class c) eqn:E; [|done]. by rewrite Hc.
Qed.

Lemma scrub_join x : scrub isdigit x = Py.join [SP] (scrub_words x).
Proof. reflexivity. Qed.

Lemma scrub_tidy x : Forall tidy (scrub isdigit x).
Proof.
  rewrite scrub_join. apply Forall_join; [by repeat constructor|].
  apply Forall_filter_keep, Forall_split.
  repeat (apply Forall_replace; [done|by repeat constructor|]).
  apply Forall_strip, tidy_re_sub_class.
Qed.

Lemma lstrip_tidy y : Forall tidy y → head y ≠ Some SP → Py.lstrip y = y.
Proof.
  destruct 1 as [|c y Hc Hy]; [done|]. simpl. intros Hhd.
  destruct (Py.isspace c) eqn:E; [|done]. destruct Hhd. f_equal. apply Hc.
  unfold in_class. rewrite E. apply orb_true_r.
Qed.

Lemma strip_tidy y :
  Forall tidy y → head y ≠ Some SP → last y ≠ Some SP → Py.strip y = y.
Proof.
  intros Hy Hhd Hlast. unfold Py.strip, Py.rstrip.
  rewrite (lstrip_tidy y) by done.
  rewrite lstrip_tidy, reverse_involutive; [done|by apply Forall_reverse|].
  by rewrite head_reverse.
Qed.

Lemma occurs_commas y : occurs (T ",,,") y → occurs (T ",,") y.
Proof. intros (a & b & ->). by exists a, (COMMA :: b). Qed.

(** A text that [scrub] has nothing to do on is left as it is. *)
Lemma scrub_fixed ws :
  let y := Py.join [SP] ws in
  Forall tidy y → Forall (λ w, SP ∉ w) ws →
  Forall (λ w, keep_word isdigit w = true) ws →
  head y ≠ Some SP → last y ≠ Some SP →
  ¬ occurs (T " ,") y → ¬ occurs (T ",,") y →
  scrub isdigit y = y.
Proof.
  intros y Hy Hsp Hkeep Hhd Hlast Hsc Hcc. unfold scrub.
  rewrite re_sub_class_tidy, strip_tidy by done.
  rewrite (replace_absent (T " ,")) by done.
  rewrite (replace_absent (T ",,,")) by (try done; by intros ?%occurs_commas).
  rewrite (replace_absent (T ",,")) by done.
  destruct ws as [|w ws]; [done|].
  change (T " ") with [SP]. unfold y. rewrite split_join_char by done.
  by rewrite filter_keep_all.
Qed.

Lemma scrub_words_no_space x : Forall (λ w, SP ∉ w) (scrub_words x).
Proof. apply Forall_filter_keep. change (T " ") with [SP]. apply split_char_words. Qed.

Lemma scrub_words_kept x : Forall (λ w, keep_word isdigit w = true) (scrub_words x).
Proof. apply Forall_forall. by intros w [Hw _]%list_elem_of_filter. Qed.

(** A second [scrub] changes the text unless the first left nothing to do. *)
Lemma scrub_fixed_only y :
  Forall tidy y → scrub isdigit y = y →
  head y ≠ Some SP ∧ last y ≠ Some SP ∧ ¬ occurs (T " ,") y ∧ ¬ occurs (T ",,") y.
Proof.
  intros Hy Hfix. unfold scrub in Hfix. rewrite re_sub_class_tidy in Hfix by done.
  set (s0 := Py.strip y) in *.
  set (s1 := Py.replace (T " ,") (T ",") s0) in *.
  set (s2 := Py.replace (T ",,,") (T ",") s1) in *.
  set (s3 := Py.replace (T ",,") (T ",") s2) in *.
  assert (length y ≤ length s3) as H3.
  { rewrite <- Hfix at 1. etrans; [apply join_filter_length|].
    change (T " ") with [SP]. by rewrite join_split_char. }
  pose proof (replace_length (T ",,") (T ",") s2 ltac:(done) ltac:(simpl; lia)) as H32.
  pose proof (replace_length (T ",,,") (T ",") s1 ltac:(done) ltac:(simpl; lia)) as H21.
  pose proof (replace_length (T " ,") (T ",") s0 ltac:(done) ltac:(simpl; lia)) as H10.
  pose proof (strip_length y) as H0.
  fold s0 in H0. fold s1 in H10. fold s2 in H21. fold s3 in H32.
  destruct (strip_same_length y) as (Hs0 & Hhd & Hlast); [fold s0; lia|].
  assert (¬ occurs (T " ,") s0) as Hn1
    by (apply (replace_same_length _ (T ",")); [done|simpl; lia|fold s1; lia]).
  assert (s1 = s0) as E1 by by apply replace_absent.
  assert (¬ occurs (T ",,,") s1) as Hn2
    by (apply (replace_same_length _ (T ",")); [done|simpl; lia|fold s2; lia]).
  assert (s2 = s1) as E2 by by apply replace_absent.
  assert (¬ occurs (T ",,") s2) as Hn3
    by (apply (replace_same_length _ (T ",")); [done|simpl; lia|fold s3; lia]).
  rewrite E2, E1 in Hn3. fold s0 in Hs0. rewrite Hs0 in *. done.
Qed.

(** C3 (as amended): a second [scrub] changes nothing exactly when the
    first result has no space at either end and holds neither [" ,"] nor
    [",,"]. *)
Theorem scrub_twice x :
  scrub isdigit (scrub isdigit x) = scrub isdigit x ↔
  head (scrub isdigit x) ≠ Some SP ∧
  last (scrub isdigit x) ≠ Some SP ∧
  ¬ occurs (T " ,") (scrub isdigit x) ∧
  ¬ occurs (T ",,") (scrub isdigit x).
Proof.
  split.
  - apply scrub_fixed_only, scrub_tidy.
  - intros (Hhd & Hlast & Hsc & Hcc). rewrite scrub_join in *.
    apply scrub_fixed; try done.
    + apply scrub_tidy.
    + apply scrub_words_no_space.
    + apply scrub_words_kept.
Qed.

(** C10: the result of [scrub] holds none of [: [ ] { }], and no
    whitespace character but the plain space. *)
Theorem scrub_no_special x c :
  c ∈ scrub isdigit x → (c ∉ T ":[]{}") ∧ (Py.isspace c = true → c = SP).
Proof.
  intros Hc. pose proof (scrub_tidy x) as Ht.
  rewrite Forall_forall in Ht. specialize (Ht c Hc). split.
  - intros Hin. assert (in_class c = true) as Hcl.
    { repeat (apply elem_of_cons in Hin as [->|Hin]; [done|]).
      by apply elem_of_nil in Hin. }
    rewrite (Ht Hcl) in Hin. vm_compute in Hin.
    repeat (apply elem_of_cons in Hin as [?|Hin]; [done|]).
    by apply elem_of_nil in Hin.
  - intros Hs. apply Ht. unfold in_class. rewrite Hs. apply orb_true_r.
Qed.
End ScrubFacts.

(** * [scrub_details] *)

Section Removal.
Import Py.

Lemma delete_all_length removals d :
  Forall (λ r, r ≠ []) removals → length (delete_all removals d) ≤ length d.
Proof.
  intros Hne. revert d. induction Hne as [|r rs Hr _ IH]; intros d; [done|].
  simpl. etrans; [apply IH|]. apply replace_length; [done|simpl; lia].
Qed.

Lemma delete_all_fixed removals d :
  Forall (λ r, r ≠ []) removals →
  delete_all removals d = d ↔ Forall (λ r, ¬ occurs r d) removals.
Proof.
  intros Hne. induction Hne as [|r rs Hr Hrs IH]; [by split|].
  simpl. split.
  - intros Hfix.
    assert (¬ occurs r d) as Hno.
    { apply (replace_same_length r []); [done|by destruct r; simpl; [|lia]|].
      pose proof (delete_all_length rs (replace r [] d) Hrs) as H1.
      pose proof (replace_length r [] d Hr ltac:(simpl; lia)) as H2.
      change (delete_all rs (replace r [] d) = d) in Hfix.
      rewrite Hfix in H1. lia. }
    constructor; [done|]. apply IH.
    change (delete_all rs (replace r [] d) = d) in Hfix.
    by rewrite replace_absent in Hfix.
  - intros [Hno Hall]%Forall_cons.
    change (delete_all rs (replace r [] d) = d).
    rewrite replace_absent by done. by apply IH.
Qed.

Lemma REMOVALS_nonempty : Forall (λ r, r ≠ []) REMOVALS.
Proof. by repeat constructor. Qed.

Lemma scrub_details_eq self d :
  details self = VStr d → scrub_details self = Ok (delete_all REMOVALS d).
Proof. unfold scrub_details. by intros ->. Qed.

Lemma occurs_infix r x p y : occurs r p → occurs r (x ++ p ++ y).
Proof.
  intros (a & b & ->). exists (x ++ a), (b ++ y). by rewrite <- !app_assoc.
Qed.

Lemma partition_before sep s a b :
  sep ≠ [] → partition sep s = Some (a, b) → ¬ occurs sep a.
Proof.
  intros Hsep E (x & y & ->).
  pose proof (partition_app _ _ _ _ E) as Hs.
  assert (s = x ++ sep ++ (y ++ sep ++ b)) as Hs'
    by (rewrite Hs; by rewrite <- !app_assoc).
  destruct (partition_leftmost _ _ _ _ Hs') as (a' & b' & E' & Hle).
  rewrite E in E'. injection E' as <- _.
  rewrite !length_app in Hle. destruct sep; [done|]. simpl in Hle. lia.
Qed.

Lemma whole_nil p0 : whole (p0, []) = p0.
Proof. unfold whole. simpl. by rewrite app_nil_r. Qed.

Lemma kept_nil p0 : kept (p0, []) = p0.
Proof. unfold kept. simpl. by rewrite app_nil_r. Qed.

Lemma whole_cons p0 g q rest :
  whole (p0, (g, q) :: rest) = p0 ++ g ++ whole (q, rest).
Proof. unfold whole. simpl. by rewrite <- !app_assoc. Qed.

Lemma kept_cons p0 g q rest : kept (p0, (g, q) :: rest) = p0 ++ kept (q, rest).
Proof. done. Qed.

Lemma whole_glue c1 g c2 : whole (glue c1 g c2) = whole c1 ++ g ++ whole c2.
Proof.
  destruct c1 as [p1 rest1], c2 as [p2 rest2]. unfold whole, glue. simpl.
  rewrite fmap_app, concat_app. simpl. by rewrite <- !app_assoc.
Qed.

Lemma kept_glue c1 g c2 : kept (glue c1 g c2) = kept c1 ++ kept c2.
Proof.
  destruct c1 as [p1 rest1], c2 as [p2 rest2]. unfold kept, glue. simpl.
  rewrite fmap_app, concat_app. simpl. by rewrite <- !app_assoc.
Qed.

Lemma kept_parts_glue c1 g c2 :
  kept_parts (glue c1 g c2) = kept_parts c1 ++ kept_parts c2.
Proof.
  destruct c1 as [p1 rest1], c2 as [p2 rest2]. unfold kept_parts, glue. simpl.
  by rewrite fmap_app.
Qed.

Lemma deleted_parts_glue c1 g c2 :
  deleted_parts (glue c1 g c2) = deleted_parts c1 ++ g :: deleted_parts c2.
Proof.
  destruct c1 as [p1 rest1], c2 as [p2 rest2]. unfold deleted_parts, glue. simpl.
  by rewrite fmap_app.
Qed.

(** A kept part lies in the kept text. *)
Lemma kept_parts_infix c p :
  p ∈ kept_parts c → ∃ x y, kept c = x ++ p ++ y.
Proof.
  destruct c as [p0 rest]. unfold kept_parts, kept. cbn [fst snd].
  revert p0. induction rest as [|[g q] rest IH]; intros p0 Hin.
  - apply list_elem_of_singleton in Hin as ->. by exists [], [].
  - rewrite fmap_cons in Hin. cbn [snd] in Hin.
    apply elem_of_cons in Hin as [->|Hin].
    + by exists [], (concat (snd <$> (g, q) :: rest)).
    + destruct (IH q Hin) as (x & y & E). exists (p0 ++ x), y.
      rewrite fmap_cons, concat_cons. cbn [snd]. rewrite E.
      by rewrite <- !app_assoc.
Qed.

Section CutSplit.
Variable G : text → Prop.
Variable Q : text → Prop.
Hypothesis Q_infix : ∀ x p y, Q (x ++ p ++ y) → Q p.

(** A cutting of a text gives a cutting for each of the two halves of what
    it keeps. *)
Lemma cut_split rest : ∀ p0 x y,
  kept (p0, rest) = x ++ y →
  Forall G (deleted_parts (p0, rest)) →
  Forall Q (kept_parts (p0, rest)) →
  ∃ c1 c2,
    kept c1 = x ∧ kept c2 = y ∧
    whole (p0, rest) = whole c1 ++ whole c2 ∧
    Forall G (deleted_parts c1) ∧ Forall G (deleted_parts c2) ∧
    Forall Q (kept_parts c1) ∧ Forall Q (kept_parts c2).
Proof.
  assert (∀ p0 rest x t, p0 = x ++ t →
    Forall G (deleted_parts (p0, rest)) →
    Forall Q (kept_parts (p0, rest)) →
    ∃ c1 c2,
      kept c1 = x ∧ kept c2 = t ++ concat (snd <$> rest) ∧
      whole (p0, rest) = whole c1 ++ whole c2 ∧
      Forall G (deleted_parts c1) ∧ Forall G (deleted_parts c2) ∧
      Forall Q (kept_parts c1) ∧ Forall Q (kept_parts c2)) as Hfirst.
  { intros p0 rest' x t -> HG HQ. exists (x, []), (t, rest').
    unfold kept, whole, kept_parts, deleted_parts in *. simpl in *.
    apply Forall_cons in HQ as [HQ0 HQ].
    split_and!; try done.
    - by rewrite app_nil_r.
    - by rewrite app_nil_r, <- app_assoc.
    - constructor; [|done]. apply (Q_infix [] x t). by rewrite app_nil_l.
    - constructor; [|done]. apply (Q_infix x t []). by rewrite app_nil_r. }
  induction rest as [|[g q] rest IH]; intros p0 x y E HG HQ.
  - rewrite kept_nil in E.
    destruct (Hfirst p0 [] x y E HG HQ) as (c1 & c2 & ? & E2 & ?).
    exists c1, c2. simpl in E2. rewrite app_nil_r in E2. done.
  - rewrite kept_cons in E.
    apply app_eq_inv in E as [(k & -> & ->)|(k & -> & E)].
    + destruct (Hfirst (x ++ k) ((g, q) :: rest) x k eq_refl HG HQ)
        as (c1 & c2 & ? & E2 & ?).
      exists c1, c2. done.
    + unfold deleted_parts, kept_parts in HG, HQ. simpl in HG, HQ.
      apply Forall_cons in HG as [Hg HG]. apply Forall_cons in HQ as [HQ0 HQ].
      destruct (IH q k y) as (c1 & c2 & E1 & E2 & Ew & HG1 & HG2 & HQ1 & HQ2);
        [done..|].
      exists (glue (p0, []) g c1), c2.
      rewrite kept_glue, whole_glue, deleted_parts_glue, kept_parts_glue.
      rewrite kept_nil, whole_nil, whole_cons, Ew, E1.
      split_and!; try done.
      * by rewrite <- !app_assoc.
      * by constructor.
      * by constructor.
Qed.
End CutSplit.

Section CutPass.
Variable removals : list text.

(** A deleted string with deleted stretches inside it is a deleted
    stretch. *)
Lemma Removed_whole rest : ∀ pre p0,
  Forall (Removed removals) (deleted_parts (p0, rest)) →
  Removed removals (pre ++ kept (p0, rest)) →
  Removed removals (pre ++ whole (p0, rest)).
Proof.
  induction rest as [|[g q] rest IH]; intros pre p0 HG H.
  - by rewrite whole_nil, <- (kept_nil p0).
  - unfold deleted_parts in HG. simpl in HG. apply Forall_cons in HG as [Hg HG].
    rewrite whole_cons. rewrite kept_cons in H.
    replace (pre ++ p0 ++ g ++ whole (q, rest))
      with (((pre ++ p0) ++ g) ++ whole (q, rest))
      by (by rewrite <- !app_assoc).
    apply IH; [done|]. rewrite <- app_assoc.
    apply Removed_ins; [|done]. by rewrite <- app_assoc.
Qed.

Variable Q : text → Prop.
Hypothesis Q_infix : ∀ x p y, Q (x ++ p ++ y) → Q p.

(** One [details.replace(remove, "")] on the kept text of a cutting gives a
    cutting of the same text, with no occurrence of [remove] inside a kept
    part. *)
Lemma replace_cut o r' n : ∀ c,
  length (kept c) < n →
  o :: r' ∈ removals →
  Forall (Removed removals) (deleted_parts c) →
  Forall Q (kept_parts c) →
  ∃ c',
    whole c' = whole c ∧
    kept c' = replace (o :: r') [] (kept c) ∧
    Forall (Removed removals) (deleted_parts c') ∧
    Forall (λ p, Q p ∧ ¬ occurs (o :: r') p) (kept_parts c').
Proof.
  induction n as [|n IH]; intros c Hn Hr HG HQ; [lia|].
  unfold replace. rewrite replace_from_eq.
  destruct (partition (o :: r') (kept c)) as [[a b]|] eqn:E.
  - assert (¬ occurs (o :: r') a) as Hfree by by eapply partition_before.
    pose proof (partition_app _ _ _ _ E) as Hk.
    cbn [fst snd]. rewrite app_nil_l.
    destruct c as [p0 rest].
    destruct (cut_split (Removed removals) Q Q_infix rest p0 a ((o :: r') ++ b))
      as (ca & [p1 rest1] & Ea & Erb & Ew & HGa & HGrb & HQa & HQrb); [done..|].
    destruct (cut_split (Removed removals) Q Q_infix rest1 p1 (o :: r') b)
      as (cr & cb & Er & Eb & Ew' & HGr & HGb & HQr & HQb); [done..|].
    destruct (IH cb) as (cb' & Ewb & Ekb & HGb' & HQb'); [|done..|].
    { rewrite Eb. rewrite Hk, !length_app in Hn. simpl in Hn. lia. }
    exists (glue ca (whole cr) cb').
    rewrite whole_glue, kept_glue, deleted_parts_glue, kept_parts_glue.
    split_and!.
    + by rewrite Ew, Ew', Ewb.
    + rewrite Ea, Ekb, Eb. done.
    + apply Forall_app. split; [done|]. constructor; [|done].
      destruct cr as [pr restr].
      apply (Removed_whole restr [] pr); [done|].
      rewrite app_nil_l, Er. by constructor.
    + apply Forall_app. split; [|done].
      rewrite Forall_forall in HQa |- *. intros p Hp. split; [by apply HQa|].
      destruct (kept_parts_infix _ _ Hp) as (x & y & Ex).
      intros Hocc. apply Hfree. rewrite <- Ea, Ex. by apply occurs_infix.
  - apply partition_None in E. exists c. split_and!; try done.
    rewrite Forall_forall in HQ |- *. intros p Hp. split; [by apply HQ|].
    destruct (kept_parts_infix _ _ Hp) as (x & y & Ex).
    intros Hocc. apply E. rewrite Ex. by apply occurs_infix.
Qed.
End CutPass.

(** The loop of [scrub_details] on the kept text of a cutting. *)
Lemma delete_all_cut removals rs : ∀ done c,
  Forall (λ r, r ≠ []) rs →
  rs ⊆ removals →
  Forall (Removed removals) (deleted_parts c) →
  Forall (λ p, ∀ r, r ∈ done → ¬ occurs r p) (kept_parts c) →
  ∃ c',
    whole c' = whole c ∧
    kept c' = delete_all rs (kept c) ∧
    Forall (Removed removals) (deleted_parts c') ∧
    Forall (λ p, ∀ r, r ∈ done ++ rs → ¬ occurs r p) (kept_parts c').
Proof.
  induction rs as [|r rs IH]; intros done c Hne Hsub HG HQ.
  - exists c. rewrite app_nil_r. done.
  - apply Forall_cons in Hne as [Hr Hne]. destruct r as [|o r']; [done|].
    destruct (replace_cut removals (λ p, ∀ r, r ∈ done → ¬ occurs r p)
                ltac:(intros x p y H r Hin Hocc; apply (H r Hin); by apply occurs_infix)
                o r' (S (length (kept c))) c)
      as (c1 & Ew1 & Ek1 & HG1 & HQ1); [lia|set_solver|done..|].
    destruct (IH (done ++ [o :: r']) c1) as (c2 & Ew2 & Ek2 & HG2 & HQ2);
      [done|set_solver|done| |].
    { eapply Forall_impl; [exact HQ1|]. intros p [H1 H2] r [Hin|Hin]%elem_of_app.
      - by apply H1.
      - apply list_elem_of_singleton in Hin as ->. done. }
    exists c2. split_and!; [congruence| |done|].
    + rewrite Ek2, Ek1. done.
    + by rewrite <- app_assoc in HQ2.
Qed.
(** A deleted stretch is not empty. *)
Lemma Removed_nonempty removals g :
  Forall (λ r, r ≠ []) removals → Removed removals g → g ≠ [].
Proof.
  intros Hne. induction 1 as [r Hr|a g b _ _ _ Hg].
  - rewrite Forall_forall in Hne. by apply Hne.
  - destruct a; [|done]. destruct g; done.
Qed.

(** C4 (as amended): [scrub_details] only deletes, and what it returns is
    the input with some stretches taken out.  Each deleted stretch is a
    removal string, possibly with other deleted stretches inside it, and no
    part of the input kept before, between or after the deleted stretches
    contains a removal string.  So a removal string occurs in the output
    only across a place where text was deleted. *)
Theorem scrub_details_clean self d :
  details self = VStr d →
  ∃ c : cutting,
    whole c = d ∧
    scrub_details self = Ok (kept c) ∧
    Forall (Removed REMOVALS) (deleted_parts c) ∧
    Forall (λ p, ∀ r, r ∈ REMOVALS → ¬ occurs r p) (kept_parts c).
Proof.
  intros Hd. rewrite (scrub_details_eq _ _ Hd).
  destruct (delete_all_cut REMOVALS REMOVALS [] (d, []))
    as (c & Ew & Ek & HG & HQ).
  - apply REMOVALS_nonempty.
  - done.
  - constructor.
  - constructor; [|constructor]. intros r Hin. by apply elem_of_nil in Hin.
  - exists c. rewrite whole_nil in Ew. rewrite kept_nil in Ek.
    split_and!; [done|by rewrite Ek|done|done].
Qed.

Lemma scrub_details_leaves_removal :
  scrub_details (set_details (VStr (T "ManufManufactureracturer")) (blank VNone S754_nan VNone))
  = Ok (T "Manufacturer")
  ∧ T "Manufacturer" ∈ REMOVALS
  ∧ occurs (T "Manufacturer") (T "Manufacturer").
Proof.
  split_and!.
  - vm_compute. reflexivity.
  - left.
  - by exists [], [].
Qed.
End Removal.

(** * Assembling [contents] *)

Section Contents.

Lemma Ok_inj {A B} (a a' : A) (b b' : B) : Ok (a, b) = Ok (a', b') → a = a' ∧ b = b'.
Proof. by intros [= -> ->]. Qed.

Lemma parse_contents_self self data self' contents :
  parse_contents self data = Ok (self', contents) →
  ∃ dv, data !! "details" = Some dv ∧ self' = set_details dv self.
Proof.
  unfold parse_contents, mbind, result_bind, mret, result_ret, getitem.
  destruct (data !! "description") as [dsc|]; [|done].
  destruct (join_value [NL] dsc); [|done].
  destruct (data !! "features") as [ft|]; [|done].
  destruct (join_value [NL] ft); [|done].
  destruct (data !! "details") as [dv|]; [|done].
  destruct (truthy dv); [destruct (scrub_details _)|]; intros [= <- <-]; eauto.
Qed.


Lemma extends_join_length l l' :
  extends l l' → length (Py.join [NL] l) ≤ length (Py.join [NL] l').
Proof.
  induction 1 as [|x x' l l' Hx Hl IH]; [simpl; lia|].
  rewrite !join_cons_length. apply prefix_length in Hx.
  destruct Hl; simpl in *; lia.
Qed.

Lemma text_block_length l :
  length (text_block l) =
  match Py.join [NL] l with [] => 0 | s => S (length s) end.
Proof.
  unfold text_block. destruct (Py.join [NL] l) as [|c s]; [done|].
  rewrite bool_decide_eq_false_2 by done. rewrite length_app. simpl. lia.
Qed.

Lemma extends_text_block_length l l' :
  extends l l' → length (text_block l) ≤ length (text_block l').
Proof.
  intros H%extends_join_length. rewrite !text_block_length.
  destruct (Py.join [NL] l), (Py.join [NL] l'); simpl in *; lia.
Qed.

Lemma parse_contents_lists self data d f dv :
  data !! "description" = Some (VList d) →
  data !! "features" = Some (VList f) →
  data !! "details" = Some dv →
  parse_contents self data =
  if truthy dv
  then match scrub_details (set_details dv self) with
       | Ok scrubbed =>
           Ok (set_details dv self, text_block d ++ text_block f ++ scrubbed ++ [NL])
       | Raise e => Raise e
       end
  else Ok (set_details dv self, text_block d ++ text_block f).
Proof.
  intros Ed Ef Edv.
  unfold parse_contents, mbind, result_bind, mret, result_ret, getitem, join_value.
  rewrite Ed, Ef, Edv. unfold text_block.
  destruct (Py.join [NL] d) as [|c jd], (Py.join [NL] f) as [|c' jf];
    repeat case_bool_decide; try done;
    destruct (truthy dv); try destruct (scrub_details _);
    rewrite ?app_nil_r, <- ?app_assoc; reflexivity.
Qed.

(** C6 (as amended): more text in [description] and [features] never
    shortens [contents], so a record past the [MIN_CHARS] gate stays past
    it. *)
Theorem longer_text_longer_contents self data d f d' f' self' contents :
  data !! "description" = Some (VList d) →
  data !! "features" = Some (VList f) →
  extends d d' →
  extends f f' →
  parse_contents self data = Ok (self', contents) →
  ∃ contents',
    parse_contents self (<["description" := VList d']> (<["features" := VList f']> data))
    = Ok (self', contents')
    ∧ length contents ≤ length contents'
    ∧ (MIN_CHARS < length contents → MIN_CHARS < length contents').
Proof.
  intros Ed Ef Hd%extends_text_block_length Hf%extends_text_block_length Ec.
  destruct (parse_contents_self _ _ _ _ Ec) as (dv & Edv & ->).
  rewrite (parse_contents_lists _ _ d f dv) in Ec by done.
  rewrite (parse_contents_lists _ _ d' f' dv)
    by (by simplify_map_eq).
  destruct (truthy dv).
  - destruct (scrub_details _) as [sd|]; [|done].
    eexists. split; [done|]. apply Ok_inj in Ec as [_ <-].
    rewrite !length_app. lia.
  - eexists. split; [done|]. apply Ok_inj in Ec as [_ <-].
    rewrite !length_app. lia.
Qed.

End Contents.

(** * The constructor *)

Section Constructor.
Variable encode : text → list token.
Variable decode : list token → text.
Variable isdigit : char → bool.
Variable repr_list : list text → text.

#[local] Abbreviation new_item := (init encode decode isdigit repr_list).
#[local] Abbreviation candidate_text := (candidate_text isdigit).
#[local] Abbreviation rendered := (rendered repr_list).
#[local] Abbreviation Built := (Built encode decode isdigit repr_list).

Lemma Ok_pair_inj {A} (a b : A) (l l' : list event) :
  (Ok a, l) = (Ok b, l') → a = b ∧ l = l'.
Proof. by intros [= -> ->]. Qed.

Lemma init_Built data pr log0 item log :
  new_item data pr log0 = (Ok item, log) ↔ Built data pr log0 item log.
Proof.
  unfold init, parse, make_prompt, mbind, M_bind, mret, M_ret, lift,
    tokenizer_encode, tokenizer_decode, getitem.
  split.
  - destruct (data !! "title") as [t|] eqn:Et; [|done].
    destruct (data !! "main_category") as [mc|] eqn:Emc; [|done].
    destruct (parse_contents (blank t pr mc) data) as [[self contents]|] eqn:Ec;
      [|done].
    cbn [fst snd]. destruct (Nat.ltb_spec MIN_CHARS (length contents)) as [Hc|Hc].
    + destruct (title self) as [|ttl|] eqn:Ettl; try done. cbn [scrub_value].
      fold (candidate_text ttl contents).
      assert (t = VStr ttl) as Ht.
      { apply parse_contents_self in Ec as (dv & _ & ->). done. }
      destruct (Nat.ltb_spec MIN_TOKENS (length (encode (candidate_text ttl contents))))
        as [Hk|Hk].
      * assert (main_category self = mc) as Hmc.
        { apply parse_contents_self in Ec as (dv & _ & ->). done. }
        assert (price self = pr) as Hpr.
        { apply parse_contents_self in Ec as (dv & _ & ->). done. }
        rewrite Hmc, Hpr.
        destruct (py_round pr) as [r|] eqn:Er; [|done].
        intros [<- <-]%Ok_pair_inj. rewrite <- !app_assoc.
        by eapply (Built_accepted _ _ _ _ _ _ _ t mc self contents ttl r).
      * intros [<- <-]%Ok_pair_inj. by eapply Built_few.
    + intros [<- <-]%Ok_pair_inj. eapply Built_short; eauto.
  - intros HB. destruct HB as [t mc self contents Et Emc Ec Hc
      |t mc self contents ttl Et Emc Ec Hc -> Hk
      |t mc self contents ttl r Et Emc Ec Hc -> Hk Er ids p];
      rewrite Et, Emc, Ec; cbn [fst snd].
    + by destruct (Nat.ltb_spec MIN_CHARS (length contents)); [lia|].
    + destruct (Nat.ltb_spec MIN_CHARS (length contents)); [|lia].
      apply parse_contents_self in Ec as (dv & _ & ->). cbn [title set_details blank scrub_value].
      fold (candidate_text ttl contents).
      by destruct (Nat.ltb_spec MIN_TOKENS (length (encode (candidate_text ttl contents))));
        [lia|].
    + destruct (Nat.ltb_spec MIN_CHARS (length contents)); [|lia].
      apply parse_contents_self in Ec as (dv & _ & ->).
      cbn [title price main_category set_details blank scrub_value].
      fold (candidate_text ttl contents).
      destruct (Nat.ltb_spec MIN_TOKENS (length (encode (candidate_text ttl contents))));
        [|lia].
      rewrite Er. by rewrite <- !app_assoc.
Qed.

Lemma parse_contents_fresh t pr mc data self contents :
  parse_contents (blank t pr mc) data = Ok (self, contents) →
  title self = t ∧ price self = pr ∧ main_category self = mc ∧
  include self = false ∧ prompt self = None ∧ token_count self = 0.
Proof. by intros (dv & _ & ->)%parse_contents_self. Qed.

(** Only the third way sets [include]. *)
Lemma Built_include data pr log0 item log :
  Built data pr log0 item log →
  include item = true →
  ∃ t mc self contents ttl rounded,
    data !! "title" = Some t ∧ data !! "main_category" = Some mc ∧
    parse_contents (blank t pr mc) data = Ok (self, contents) ∧
    MIN_CHARS < length contents ∧ t = VStr ttl ∧
    MIN_TOKENS < length (encode (candidate_text ttl contents)) ∧
    py_round pr = Ok rounded ∧
    prompt item =
      Some (rendered mc (decode (take MAX_TOKENS (encode (candidate_text ttl contents))))
              rounded).
Proof.
  destruct 1 as [t mc self contents Et Emc Ec Hc
    |t mc self contents ttl Et Emc Ec Hc -> Hk
    |t mc self contents ttl r Et Emc Ec Hc -> Hk Er ids p]; intros Hi.
  - apply parse_contents_fresh in Ec as (_ & _ & _ & Hf & _). congruence.
  - apply parse_contents_fresh in Ec as (_ & _ & _ & Hf & _). congruence.
  - by exists (VStr ttl), mc, self, contents, ttl, r.
Qed.

Lemma rendered_split mc body rounded :
  rendered mc body rounded =
  (QUESTION ++ [NL; NL] ++ T "Main_Category: " ++ format_value repr_list mc
     ++ [NL; NL] ++ body ++ [NL; NL])
  ++ PREFIX ++ Py.str_int rounded ++ T ".00".
Proof. unfold rendered. by rewrite <- !(assoc_L (++)). Qed.

(** C2: the prompt of an accepted record starts with [QUESTION] and ends
    with [PREFIX], [round(price)] and [.00]. *)
Theorem prompt_shape data pr log0 item log :
  new_item data pr log0 = (Ok item, log) →
  include item = true →
  ∃ p rounded,
    prompt item = Some p ∧ py_round pr = Ok rounded ∧
    QUESTION `prefix_of` p ∧
    (PREFIX ++ Py.str_int rounded ++ T ".00") `suffix_of` p.
Proof.
  intros HB%init_Built Hi.
  destruct (Built_include _ _ _ _ _ HB Hi)
    as (t & mc & self & contents & ttl & r & _ & _ & _ & _ & _ & _ & Er & Hp).
  eexists _, r. split_and!; [done..| |].
  - by eexists.
  - rewrite rendered_split. by eexists.
Qed.


Lemma app_eq_suffix (x1 y1 x2 y2 : text) :
  x1 ++ y1 = x2 ++ y2 → length x2 ≤ length x1 → y1 `suffix_of` y2.
Proof.
  intros [(k & -> & ->)|(k & -> & ->)]%app_eq_inv Hlen.
  - by eexists.
  - rewrite length_app in Hlen. destruct k; [by exists []|simpl in Hlen; lia].
Qed.

(** [test_prompt] cuts the prompt after the leftmost occurrence of
    [PREFIX]. *)
Lemma test_prompt_cut self p h tl :
  prompt self = Some p →
  p = h ++ PREFIX ++ tl →
  ∃ a b,
    test_prompt self = Ok (a ++ PREFIX) ∧ p = (a ++ PREFIX) ++ b ∧
    tl `suffix_of` b ∧
    ∀ a' b', p = a' ++ PREFIX ++ b' → length a ≤ length a'.
Proof.
  intros Hp Hocc. unfold test_prompt. rewrite Hp.
  destruct (partition_leftmost _ _ _ _ Hocc) as (a & b & E & Hlen).
  change (Py.split PREFIX p) with (Py.split_from 80%N (T "rice is $") p).
  rewrite split_from_eq. change (80%N :: T "rice is $") with PREFIX.
  rewrite E. cbn [fst]. exists a, b.
  pose proof (Py.partition_app _ _ _ _ E) as Hab.
  split_and!; [done|by rewrite <- (assoc_L (++))|..].
  - apply (app_eq_suffix (h ++ PREFIX) _ (a ++ PREFIX)).
    + rewrite <- !(assoc_L (++)). congruence.
    + rewrite !length_app. lia.
  - intros a' b' Hocc'.
    destruct (partition_leftmost _ _ _ _ Hocc') as (a2 & b2 & E2 & Hlen2).
    congruence.
Qed.

(** C8: for an accepted record, [test_prompt] is the prompt up to and
    with the leftmost [PREFIX]; it is a strict prefix of the prompt, ends
    with [PREFIX], and the digits of the price and [.00] are in the part
    cut off. *)
Theorem test_prompt_withholds_price data pr log0 item log :
  new_item data pr log0 = (Ok item, log) →
  include item = true →
  ∃ p a b rounded,
    prompt item = Some p ∧ py_round pr = Ok rounded ∧
    test_prompt item = Ok (a ++ PREFIX) ∧
    p = (a ++ PREFIX) ++ b ∧ b ≠ [] ∧
    (Py.str_int rounded ++ T ".00") `suffix_of` b ∧
    ∀ a' b', p = a' ++ PREFIX ++ b' → length a ≤ length a'.
Proof.
  intros HB%init_Built Hi.
  destruct (Built_include _ _ _ _ _ HB Hi)
    as (t & mc & self & contents & ttl & r & _ & _ & _ & _ & _ & _ & Er & Hp).
  destruct (test_prompt_cut item _ _ _ Hp (rendered_split _ _ _))
    as (a & b & Htp & Hab & Hsuf & Hmin).
  eexists _, a, b, r. split_and!; try done.
  intros ->. apply suffix_nil_inv in Hsuf.
  apply (f_equal length) in Hsuf. rewrite length_app in Hsuf. simpl in Hsuf. lia.
Qed.


(** What a run returns and logs is fixed by the two thresholds. *)
Lemma run_short data pr log0 t mc self contents :
  data !! "title" = Some t → data !! "main_category" = Some mc →
  parse_contents (blank t pr mc) data = Ok (self, contents) →
  length contents ≤ MIN_CHARS →
  new_item data pr log0 = (Ok self, log0).
Proof. intros. apply init_Built. by eapply Built_short. Qed.

Lemma run_few data pr log0 ttl mc self contents :
  data !! "title" = Some (VStr ttl) → data !! "main_category" = Some mc →
  parse_contents (blank (VStr ttl) pr mc) data = Ok (self, contents) →
  MIN_CHARS < length contents →
  length (encode (candidate_text ttl contents)) ≤ MIN_TOKENS →
  new_item data pr log0 = (Ok self, log0 ++ [Encode (candidate_text ttl contents)]).
Proof. intros. apply init_Built. by eapply Built_few. Qed.

Lemma run_tokenizes data pr log0 ttl mc self contents :
  data !! "title" = Some (VStr ttl) → data !! "main_category" = Some mc →
  parse_contents (blank (VStr ttl) pr mc) data = Ok (self, contents) →
  MIN_CHARS < length contents →
  ∃ rest, (new_item data pr log0).2 = log0 ++ Encode (candidate_text ttl contents) :: rest.
Proof.
  intros Et Emc Ec Hc.
  unfold init, parse, make_prompt, mbind, M_bind, mret, M_ret, lift,
    tokenizer_encode, tokenizer_decode, getitem.
  rewrite Et, Emc, Ec. cbn [fst snd].
  destruct (Nat.ltb_spec MIN_CHARS (length contents)); [|lia].
  apply parse_contents_self in Ec as (dv & _ & ->).
  cbn [title set_details blank scrub_value]. fold (candidate_text ttl contents).
  destruct (_ <? _); [|by exists []].
  destruct (py_round _); eexists; cbn [snd]; rewrite <- !(assoc_L (++) log0); reflexivity.
Qed.

Lemma run_truncates data pr log0 ttl mc self contents :
  data !! "title" = Some (VStr ttl) → data !! "main_category" = Some mc →
  parse_contents (blank (VStr ttl) pr mc) data = Ok (self, contents) →
  MIN_CHARS < length contents →
  MIN_TOKENS < length (encode (candidate_text ttl contents)) →
  ∃ rest, (new_item data pr log0).2 =
    log0 ++ [Encode (candidate_text ttl contents);
             Decode (take MAX_TOKENS (encode (candidate_text ttl contents)))] ++ rest.
Proof.
  intros Et Emc Ec Hc Hk.
  unfold init, parse, make_prompt, mbind, M_bind, mret, M_ret, lift,
    tokenizer_encode, tokenizer_decode, getitem.
  rewrite Et, Emc, Ec. cbn [fst snd].
  destruct (Nat.ltb_spec MIN_CHARS (length contents)); [|lia].
  apply parse_contents_self in Ec as (dv & _ & ->).
  cbn [title set_details blank scrub_value]. fold (candidate_text ttl contents).
  destruct (Nat.ltb_spec MIN_TOKENS (length (encode (candidate_text ttl contents))));
    [|lia].
  destruct (py_round _); eexists; cbn [snd]; rewrite <- !(assoc_L (++) log0); reflexivity.
Qed.

Lemma run_accepts data pr log0 ttl mc self contents rounded :
  data !! "title" = Some (VStr ttl) → data !! "main_category" = Some mc →
  parse_contents (blank (VStr ttl) pr mc) data = Ok (self, contents) →
  MIN_CHARS < length contents →
  MIN_TOKENS < length (encode (candidate_text ttl contents)) →
  py_round pr = Ok rounded →
  ∃ item, (new_item data pr log0).1 = Ok item ∧ include item = true.
Proof.
  intros. eexists. split; [|shelve].
  erewrite (proj2 (init_Built _ _ _ _ _)); [done|]. by eapply Built_accepted.
  Unshelve. done.
Qed.

(** C1: [include] is set only if [contents] is longer than [MIN_CHARS]
    and the scrubbed text has more than [MIN_TOKENS] tokens; exactly
    [MIN_CHARS] characters or exactly [MIN_TOKENS] tokens are rejected,
    [MIN_CHARS + 1] characters reach the tokenizer and [MIN_TOKENS + 1]
    tokens reach the truncation. *)
Theorem thresholds_exclusive data pr log0 t mc self contents :
  data !! "title" = Some t →
  data !! "main_category" = Some mc →
  parse_contents (blank t pr mc) data = Ok (self, contents) →
  let tokens ttl := encode (candidate_text ttl contents) in
  (∀ item, (new_item data pr log0).1 = Ok item → include item = true →
     MIN_CHARS < length contents ∧ ∃ ttl, t = VStr ttl ∧ MIN_TOKENS < length (tokens ttl))
  ∧ (length contents = MIN_CHARS →
       new_item data pr log0 = (Ok self, log0) ∧ include self = false)
  ∧ (∀ ttl, t = VStr ttl → length contents = MIN_CHARS + 1 →
       ∃ rest, (new_item data pr log0).2 = log0 ++ Encode (candidate_text ttl contents) :: rest)
  ∧ (∀ ttl, t = VStr ttl → length (tokens ttl) = MIN_TOKENS →
       ∃ log, new_item data pr log0 = (Ok self, log) ∧ include self = false)
  ∧ (∀ ttl, t = VStr ttl → MIN_CHARS < length contents →
       length (tokens ttl) = MIN_TOKENS + 1 →
       (∃ rest, (new_item data pr log0).2 =
          log0 ++ [Encode (candidate_text ttl contents);
                   Decode (take MAX_TOKENS (tokens ttl))] ++ rest)
       ∧ ∀ rounded, py_round pr = Ok rounded →
           ∃ item, (new_item data pr log0).1 = Ok item ∧ include item = true).
Proof.
  intros Et Emc Ec tokens.
  pose proof (parse_contents_fresh _ _ _ _ _ _ Ec) as (_ & _ & _ & Hf & _).
  split_and!.
  - intros item Hrun Hi.
    destruct (new_item data pr log0) as [r log] eqn:E. simpl in Hrun. subst r.
    apply init_Built in E.
    destruct (Built_include _ _ _ _ _ E Hi)
      as (t' & mc' & self' & contents' & ttl & r & Et' & Emc' & Ec' & Hc & -> & Hk & _).
    assert (t = VStr ttl) as -> by congruence.
    assert (mc' = mc) as -> by congruence.
    assert (contents' = contents) as -> by congruence.
    split; [done|]. by exists ttl.
  - intros Hlen. split; [|done]. eapply run_short; eauto. lia.
  - intros ttl -> Hlen. eapply run_tokenizes; eauto. lia.
  - intros ttl -> Hlen. destruct (decide (length contents ≤ MIN_CHARS)).
    + eexists. split; [|done]. by eapply run_short.
    + eexists. split; [|done]. eapply run_few; eauto; unfold tokens in *; lia.
  - intros ttl -> Hc Hlen. split.
    + eapply run_truncates; eauto. unfold tokens in *; lia.
    + intros r Er. eapply run_accepts; eauto. unfold tokens in *; lia.
Qed.


(** C9: a record with too little text is rejected without an exception,
    and a rejected object has no prompt, a token count of 0 and the title,
    price and category it was given. *)
Theorem rejection_is_clean data pr log0 :
  (∀ t mc self contents,
     data !! "title" = Some t →
     data !! "main_category" = Some mc →
     parse_contents (blank t pr mc) data = Ok (self, contents) →
     (length contents ≤ MIN_CHARS
      ∨ ∃ ttl, t = VStr ttl ∧ length (encode (candidate_text ttl contents)) ≤ MIN_TOKENS) →
     ∃ item log, new_item data pr log0 = (Ok item, log) ∧ include item = false)
  ∧ (∀ item log,
       new_item data pr log0 = (Ok item, log) →
       include item = false →
       prompt item = None ∧ token_count item = 0 ∧
       data !! "title" = Some (title item) ∧ price item = pr ∧
       data !! "main_category" = Some (main_category item)).
Proof.
  split.
  - intros t mc self contents Et Emc Ec Hins.
    pose proof (parse_contents_fresh _ _ _ _ _ _ Ec) as (_ & _ & _ & Hf & _).
    destruct (decide (length contents ≤ MIN_CHARS)) as [Hc|Hc].
    { eexists self, _. split; [|done]. by eapply run_short. }
    destruct Hins as [?|(ttl & -> & Hk)]; [done|].
    eexists self, _. split; [|done]. eapply run_few; eauto. lia.
  - intros item log HB%init_Built Hi.
    destruct HB as [t mc self contents Et Emc Ec Hc
      |t mc self contents ttl Et Emc Ec Hc -> Hk
      |t mc self contents ttl r Et Emc Ec Hc -> Hk Er ids p]; [| |done].
    + by apply parse_contents_fresh in Ec as (-> & -> & -> & _ & -> & ->).
    + by apply parse_contents_fresh in Ec as (-> & -> & -> & _ & -> & ->).
Qed.


(** C5 (as amended): a record whose [details] is [None] is processed
    normally; [details] adds nothing to [contents], and the verdict is that
    of the two thresholds. *)
Theorem details_none_processed data pr log0 ttl mc d f rounded :
  data !! "title" = Some (VStr ttl) →
  data !! "main_category" = Some mc →
  data !! "description" = Some (VList d) →
  data !! "features" = Some (VList f) →
  data !! "details" = Some VNone →
  py_round pr = Ok rounded →
  let contents := text_block d ++ text_block f in
  parse_contents (blank (VStr ttl) pr mc) data = Ok (blank (VStr ttl) pr mc, contents)
  ∧ ∃ item log,
      new_item data pr log0 = (Ok item, log) ∧
      (include item = true ↔
       MIN_CHARS < length contents ∧
       MIN_TOKENS < length (encode (candidate_text ttl contents))).
Proof.
  intros Et Emc Ed Ef Edv Er contents.
  assert (parse_contents (blank (VStr ttl) pr mc) data
          = Ok (blank (VStr ttl) pr mc, contents)) as Ec
    by by rewrite (parse_contents_lists _ _ d f VNone).
  split; [done|].
  destruct (decide (MIN_CHARS < length contents)) as [Hc|Hc].
  - destruct (decide (MIN_TOKENS < length (encode (candidate_text ttl contents))))
      as [Hk|Hk].
    + eexists _, _. split.
      * apply init_Built. by eapply Built_accepted.
      * done.
    + eexists _, _. split; [eapply run_few; eauto; lia|].
      split; [done|]. intros [_ ?]. lia.
  - eexists _, _. split; [eapply run_short; eauto; lia|].
    split; [done|]. intros [? _]. lia.
Qed.

(** What an accepted run hands to [decode] has at most [MAX_TOKENS]
    tokens. *)
Lemma decoded_at_most_MAX_TOKENS data pr item log ids :
  new_item data pr [] = (Ok item, log) →
  Decode ids ∈ log →
  length ids ≤ MAX_TOKENS.
Proof.
  intros HB%init_Built Hin.
  destruct HB as [t mc self contents Et Emc Ec Hc
    |t mc self contents ttl Et Emc Ec Hc -> Hk
    |t mc self contents ttl r Et Emc Ec Hc -> Hk Er ids' p].
  - by apply elem_of_nil in Hin.
  - apply elem_of_cons in Hin as [?|Hin]; [done|]. by apply elem_of_nil in Hin.
  - repeat (apply elem_of_cons in Hin as [Hin|Hin]; try done).
    + injection Hin as ->. unfold ids'. rewrite length_take. lia.
    + by apply elem_of_nil in Hin.
Qed.

Lemma existsb_concat_replicate (f : char → bool) n w :
  existsb f w = false → existsb f (concat (replicate n w)) = false.
Proof.
  intros Hw. induction n as [|n IH]; [done|].
  simpl. by rewrite existsb_app, Hw, IH.
Qed.

Lemma scrub_example_title : scrub isdigit example_title = example_title.
Proof. vm_compute. reflexivity. Qed.

Lemma scrub_long_word :
  (∀ c, c ∈ T "ab-" → isdigit c = false) →
  scrub isdigit (take CEILING_CHARS (long_word ++ [NL])) = long_word.
Proof.
  intros Hno. rewrite scrub_join. unfold scrub_words.
  assert (raw_words (take CEILING_CHARS (long_word ++ [NL])) = [long_word]) as ->
    by (vm_compute; reflexivity).
  rewrite filter_cons_True; [done|].
  unfold keep_word. apply orb_true_iff. right. apply negb_true_iff.
  apply existsb_concat_replicate.
  change (existsb isdigit (T "ab-"))
    with (isdigit 97%N || (isdigit 98%N || (isdigit 45%N || false))).
  rewrite !Hno; [done|..]; apply list_elem_of_In; vm_compute; tauto.
Qed.

Lemma scrub_long_word_digit :
  isdigit 49%N = true →
  scrub isdigit (take CEILING_CHARS ((long_word ++ T "1") ++ [NL])) = [].
Proof.
  intros Hd. rewrite scrub_join. unfold scrub_words.
  assert (raw_words (take CEILING_CHARS ((long_word ++ T "1") ++ [NL]))
          = [long_word ++ T "1"]) as ->
    by (vm_compute; reflexivity).
  rewrite filter_cons_False; [done|].
  unfold keep_word. rewrite existsb_app.
  change (existsb isdigit (T "1")) with (isdigit 49%N || false).
  rewrite Hd, orb_true_r. by vm_compute.
Qed.

Lemma example_parse_contents w :
  w ≠ [] →
  parse_contents example_self (example_record [w]) = Ok (example_self, w ++ [NL]).
Proof.
  intros Hw.
  rewrite (parse_contents_lists _ _ [w] [] VNone) by (vm_compute; reflexivity).
  cbn [truthy]. unfold text_block. cbn [Py.join].
  rewrite bool_decide_eq_false_2 by done. by rewrite app_nil_r.
Qed.

(** Whatever the tokenizer: if it gives more than [MIN_TOKENS] tokens to
    the title and [long_word], and at most [MIN_TOKENS] to the title alone,
    one more character in [description] turns acceptance into rejection. *)
Lemma longer_text_rejected_any_tokenizer :
  (∀ c, c ∈ T "ab-" → isdigit c = false) →
  isdigit 49%N = true →
  MIN_TOKENS < length (encode (example_title ++ [NL] ++ long_word)) →
  length (encode (example_title ++ [NL])) ≤ MIN_TOKENS →
  (∃ item log, new_item (example_record [long_word]) example_price [] = (Ok item, log)
               ∧ include item = true)
  ∧ (∃ item log, new_item (example_record [long_word ++ T "1"]) example_price []
                 = (Ok item, log)
                 ∧ include item = false).
Proof.
  intros Hno Hd Hlong Hshort.
  assert (long_word ≠ []) as Hw by by vm_compute.
  assert (MIN_CHARS < length (long_word ++ [NL])) as Hc by (vm_compute; lia).
  assert (MIN_CHARS < length ((long_word ++ T "1") ++ [NL])) as Hc'
    by (vm_compute; lia).
  pose proof (example_parse_contents long_word Hw) as Ec.
  pose proof (example_parse_contents (long_word ++ T "1")) as Ec'.
  split.
  - eexists _, _. split.
    + apply init_Built.
      eapply (Built_accepted _ _ _ _ _ _ _ (VStr example_title) (VStr example_category));
        [by vm_compute|by vm_compute|exact Ec|done|done| |by vm_compute].
      unfold candidate_text.
      by rewrite scrub_example_title, scrub_long_word.
    + done.
  - eexists example_self, _. split; [|done].
    eapply (run_few _ _ [] example_title);
      [by vm_compute|by vm_compute|apply Ec'; by destruct long_word|done|].
    unfold candidate_text.
    by rewrite scrub_example_title, scrub_long_word_digit.
Qed.
End Constructor.

(** * The theorems on examples *)

Lemma example_run_accepted :
  example_run (example_record [long_word]) = (Ok example_item, example_log).
Proof. vm_compute. reflexivity. Qed.

Lemma thresholds_exclusive_witness :
  MIN_CHARS < length example_contents
  ∧ ∃ ttl, VStr example_title = VStr ttl
           ∧ MIN_TOKENS < length (char_encode (candidate_text ascii_isdigit ttl example_contents)).
Proof.
  refine (proj1 (thresholds_exclusive char_encode char_decode ascii_isdigit no_repr
                   (example_record [long_word]) example_price []
                   (VStr example_title) (VStr example_category)
                   example_self example_contents _ _ _) example_item _ _);
    vm_compute; reflexivity.
Defined.

Lemma prompt_shape_witness :
  ∃ p rounded,
    prompt example_item = Some p ∧ py_round example_price = Ok rounded ∧
    QUESTION `prefix_of` p ∧
    (PREFIX ++ Py.str_int rounded ++ T ".00") `suffix_of` p.
Proof.
  apply (prompt_shape char_encode char_decode ascii_isdigit no_repr
           (example_record [long_word]) example_price [] example_item example_log).
  - vm_compute. reflexivity.
  - reflexivity.
Defined.

Lemma test_prompt_withholds_price_witness :
  ∃ p a b rounded,
    prompt example_item = Some p ∧ py_round example_price = Ok rounded ∧
    test_prompt example_item = Ok (a ++ PREFIX) ∧
    p = (a ++ PREFIX) ++ b ∧ b ≠ [] ∧
    (Py.str_int rounded ++ T ".00") `suffix_of` b ∧
    ∀ a' b', p = a' ++ PREFIX ++ b' → length a ≤ length a'.
Proof.
  apply (test_prompt_withholds_price char_encode char_decode ascii_isdigit no_repr
           (example_record [long_word]) example_price [] example_item example_log).
  - vm_compute. reflexivity.
  - reflexivity.
Defined.

Lemma rejection_is_clean_witness :
  prompt example_rejected = None ∧ token_count example_rejected = 0 ∧
  example_record [] !! "title" = Some (title example_rejected) ∧
  price example_rejected = example_price ∧
  example_record [] !! "main_category" = Some (main_category example_rejected).
Proof.
  apply (proj2 (rejection_is_clean char_encode char_decode ascii_isdigit no_repr
                  (example_record []) example_price []) example_rejected []).
  - vm_compute. reflexivity.
  - reflexivity.
Defined.

Lemma details_none_processed_witness :
  parse_contents example_self (example_record [long_word])
  = Ok (example_self, text_block [long_word] ++ text_block [])
  ∧ ∃ item log,
      example_run (example_record [long_word]) = (Ok item, log) ∧
      (include item = true ↔
       MIN_CHARS < length (text_block [long_word] ++ text_block []) ∧
       MIN_TOKENS < length (char_encode (candidate_text ascii_isdigit example_title
                                           (text_block [long_word] ++ text_block [])))).
Proof.
  apply (details_none_processed char_encode char_decode ascii_isdigit no_repr
           (example_record [long_word]) example_price [] example_title
           (VStr example_category) [long_word] [] 122%Z);
    vm_compute; reflexivity.
Defined.

(** A record with no ["details"] key at all. *)
Lemma details_key_required :
  (example_run (delete "details" (example_record [long_word]))).1
  = Raise (KeyError "details").
Proof. vm_compute. reflexivity. Qed.

Lemma longer_text_longer_contents_witness :
  ∃ contents',
    parse_contents example_self
      (<["description" := VList [long_word; T "more"]]>
         (<["features" := VList [T "new"]]> (example_record [long_word])))
    = Ok (example_self, contents')
    ∧ length example_contents ≤ length contents'
    ∧ (MIN_CHARS < length example_contents → MIN_CHARS < length contents').
Proof.
  apply (longer_text_longer_contents example_self (example_record [long_word])
           [long_word] [] [long_word; T "more"] [T "new"]).
  - vm_compute. reflexivity.
  - vm_compute. reflexivity.
  - constructor; [reflexivity|constructor].
  - constructor.
  - vm_compute. reflexivity.
Defined.

(** One more character, a digit, at the end of the only word: the word is
    dropped by [scrub], and the record is rejected. *)
Lemma longer_text_rejected :
  extends [long_word] [long_word ++ T "1"]
  ∧ (example_run (example_record [long_word])).1 = Ok example_item
  ∧ include example_item = true
  ∧ (example_run (example_record [long_word ++ T "1"])).1 = Ok example_longer_rejected
  ∧ include example_longer_rejected = false.
Proof.
  split_and!.
  - constructor; [by apply prefix_app_r|constructor].
  - vm_compute. reflexivity.
  - reflexivity.
  - vm_compute. reflexivity.
  - reflexivity.
Qed.

Lemma scrub_twice_witness :
  scrub ascii_isdigit (scrub ascii_isdigit (T "a [b]")) = scrub ascii_isdigit (T "a [b]").
Proof.
  apply scrub_twice. split_and!.
  - vm_compute. discriminate.
  - vm_compute. discriminate.
  - apply partition_None. vm_compute. reflexivity.
  - apply partition_None. vm_compute. reflexivity.
Defined.

Lemma scrub_not_idempotent :
  scrub ascii_isdigit (scrub ascii_isdigit (T "a  ,b")) ≠ scrub ascii_isdigit (T "a  ,b").
Proof. vm_compute. discriminate. Qed.

Lemma scrub_no_special_witness :
  (97%N ∉ T ":[]{}") ∧ (Py.isspace 97%N = true → 97%N = SP).
Proof.
  apply (scrub_no_special ascii_isdigit (T "a{b}") 97%N).
  vm_compute. left.
Defined.

Lemma scrub_details_clean_witness :
  ∃ c : cutting,
    whole c = T "Manufacturer:  Dell" ∧
    scrub_details (set_details (VStr (T "Manufacturer:  Dell")) example_self)
    = Ok (kept c) ∧
    Forall (Removed REMOVALS) (deleted_parts c) ∧
    Forall (λ p, ∀ r, r ∈ REMOVALS → ¬ occurs r p) (kept_parts c).
Proof.
  apply (scrub_details_clean _ (T "Manufacturer:  Dell")). reflexivity.
Defined.

(** The number of tokens of the decoded text, encoded again, is not fixed
    by the code: with [pair_encode],
    which round-trips on the text of this accepted record, the truncated
    tokens decode to a prefix of the text that encodes to twice as many
    tokens. *)
Lemma reencoding_depends_on_tokenizer :
  ∃ item s ids p,
    pair_run = (Ok item, [Encode s; Decode ids; Encode p])
    ∧ include item = true
    ∧ pair_decode (pair_encode s) = s
    ∧ pair_decode ids `prefix_of` s
    ∧ length ids = MAX_TOKENS
    ∧ length (pair_encode (pair_decode ids)) = 2 * MAX_TOKENS.
Proof.
  set (run := pair_run). vm_compute in run.
  match eval unfold run in run with
  | (Ok ?item, [Encode ?s; Decode ?ids; Encode ?p]) => exists item, s, ids, p
  end.
  split_and!; [reflexivity|reflexivity|vm_compute; reflexivity| |reflexivity|vm_compute; reflexivity].
  eexists. vm_compute. reflexivity.
Qed.

(** * Further examples *)

(** The example record with [None] as its title. *)
Definition untitled_record (description : list text) : gmap string value :=
  <["title" := VNone]> (example_record description).

(** A word of 1200 characters, longer than [CEILING_CHARS]. *)
Definition very_long_word : text := concat (replicate 400 (T "ab-")).

Definition example_item_beyond : Item :=
  Eval vm_compute in
    match (example_run (example_record [very_long_word ++ T "x"])).1 with
    | Ok item => item
    | Raise _ => example_self
    end.
Definition example_log_beyond : list event :=
  Eval vm_compute in (example_run (example_record [very_long_word ++ T "x"])).2.

(** [features] as in the test at the end of the source: one [str]. *)
Definition str_features_record : gmap string value :=
  <["features" := VStr (T "Intel Core")]> (example_record [T "The Dell Inspiron 14"]).

(** [details] as a list. *)
Definition list_details_record : gmap string value :=
  <["details" := VList [T "Manufacturer: Dell"]]> (example_record [long_word]).

(** Details as the records of the source have them. *)
Definition example_details : text :=
  T "Manufacturer: Dell, Is Discontinued By Manufacturer: No, Weight: 3 pounds".

(** [description] set to [None]. *)
Definition none_description_record : gmap string value :=
  <["description" := VNone]> (example_record []).

(** * Further properties of the constructor *)

Section ConstructorMore.
Variable encode : text → list token.
Variable decode : list token → text.
Variable isdigit : char → bool.
Variable repr_list : list text → text.

#[local] Abbreviation new_item := (init encode decode isdigit repr_list).
#[local] Abbreviation candidate_text := (candidate_text isdigit).
#[local] Abbreviation rendered := (rendered repr_list).
#[local] Abbreviation Built := (Built encode decode isdigit repr_list).



(** The run, once [title] and [main_category] are found. *)
Lemma run_unfold data pr log0 t mc :
  data !! "title" = Some t → data !! "main_category" = Some mc →
  new_item data pr log0 = parse encode decode isdigit repr_list (blank t pr mc) data log0.
Proof.
  intros Et Emc. unfold init, mbind, M_bind, lift, getitem. by rewrite Et, Emc.
Qed.




(** The run, once [contents] is assembled and found long enough. *)
Lemma run_long data pr log0 t mc self contents :
  data !! "title" = Some t → data !! "main_category" = Some mc →
  parse_contents (blank t pr mc) data = Ok (self, contents) →
  MIN_CHARS < length contents →
  new_item data pr log0 =
  match t with
  | VStr ttl =>
      let s := candidate_text ttl contents in
      if MIN_TOKENS <? length (encode s) then
        let ids := take MAX_TOKENS (encode s) in
        match py_round pr with
        | Ok rounded =>
            let p := rendered mc (decode ids) rounded in
            (Ok (set_include true
                   (set_token_count (length (encode p)) (set_prompt (Some p) self))),
             log0 ++ [Encode s; Decode ids; Encode p])
        | Raise e => (Raise e, log0 ++ [Encode s; Decode ids])
        end
      else (Ok self, log0 ++ [Encode s])
  | _ => (Raise TypeError, log0)
  end.
Proof.
  intros Et Emc Ec Hc. rewrite (run_unfold _ _ _ t mc) by done.
  unfold parse, make_prompt, mbind, M_bind, mret, M_ret, lift,
    tokenizer_encode, tokenizer_decode.
  rewrite Ec. cbn [fst snd].
  destruct (Nat.ltb_spec MIN_CHARS (length contents)); [|lia].
  apply parse_contents_self in Ec as (dv & _ & ->).
  cbn [title price main_category set_details blank scrub_value].
  destruct t as [|ttl|]; [done| |done]. cbn [scrub_value].
  fold (candidate_text ttl contents). cbv zeta.
  destruct (_ <? _); [|done].
  destruct (py_round pr);
    [unfold rendered; rewrite <- !app_assoc|rewrite <- !(assoc_L (++) log0)];
    reflexivity.
Qed.

(** X2: the title is looked at only once [contents] is past [MIN_CHARS]: a
    record whose title is not a [str] is rejected like any other when its
    text is short, and raises [TypeError], before any call to the
    tokenizer, when its text is long. *)
Theorem title_checked_late data pr log0 t mc self contents :
  data !! "title" = Some t →
  data !! "main_category" = Some mc →
  parse_contents (blank t pr mc) data = Ok (self, contents) →
  (∀ ttl, t ≠ VStr ttl) →
  new_item data pr log0 =
  if MIN_CHARS <? length contents then (Raise TypeError, log0) else (Ok self, log0).
Proof.
  intros Et Emc Ec Ht. destruct (Nat.ltb_spec MIN_CHARS (length contents)).
  - rewrite (run_long _ _ _ t mc self contents) by done.
    destruct t; [done|by destruct (Ht s)|done].
  - by eapply run_short.
Qed.

(** X3: a price that [round] refuses ([inf], [nan]) makes the constructor
    raise only for a record that passes both gates, after the text was
    encoded and its first tokens decoded; a rejected record is returned
    whatever the price. *)
Theorem bad_price_raises_late data pr log0 ttl mc self contents e :
  data !! "title" = Some (VStr ttl) →
  data !! "main_category" = Some mc →
  parse_contents (blank (VStr ttl) pr mc) data = Ok (self, contents) →
  py_round pr = Raise e →
  let s := candidate_text ttl contents in
  new_item data pr log0 =
  if (MIN_CHARS <? length contents) && (MIN_TOKENS <? length (encode s))
  then (Raise e, log0 ++ [Encode s; Decode (take MAX_TOKENS (encode s))])
  else if MIN_CHARS <? length contents then (Ok self, log0 ++ [Encode s])
  else (Ok self, log0).
Proof.
  intros Et Emc Ec Er s. destruct (Nat.ltb_spec MIN_CHARS (length contents)).
  - rewrite (run_long _ _ _ _ mc self contents) by done. cbv zeta. fold s.
    rewrite Er. by destruct (_ <? _).
  - by eapply run_short.
Qed.

(** [round] refuses exactly [nan] and the infinities. *)
Lemma py_round_raises pr e :
  py_round pr = Raise e ↔
  (pr = S754_nan ∧ e = ValueError) ∨ (∃ s, pr = S754_infinity s ∧ e = OverflowError).
Proof.
  split.
  - destruct pr; simpl; try done; intros [= <-]; eauto.
  - intros [[-> ->]|(s & -> & ->)]; done.
Qed.

(** X4: for a title that is a [str] and a price that [round] accepts, the
    constructor returns an object, and [include] is set exactly when
    [contents] has more than [MIN_CHARS] characters and the scrubbed text
    more than [MIN_TOKENS] tokens. *)
Theorem verdict_characterised data pr log0 ttl mc self contents rounded :
  data !! "title" = Some (VStr ttl) →
  data !! "main_category" = Some mc →
  parse_contents (blank (VStr ttl) pr mc) data = Ok (self, contents) →
  py_round pr = Ok rounded →
  ∃ item log,
    new_item data pr log0 = (Ok item, log) ∧
    (include item = true ↔
     MIN_CHARS < length contents ∧
     MIN_TOKENS < length (encode (candidate_text ttl contents))).
Proof.
  intros Et Emc Ec Er.
  pose proof (parse_contents_fresh _ _ _ _ _ _ Ec) as (_ & _ & _ & Hf & _).
  destruct (Nat.ltb_spec MIN_CHARS (length contents)) as [Hc|Hc].
  - rewrite (run_long _ _ _ _ mc self contents) by done. cbv zeta. rewrite Er.
    destruct (Nat.ltb_spec MIN_TOKENS (length (encode (candidate_text ttl contents)))).
    + eexists _, _. split; [done|]. done.
    + eexists _, _. split; [done|]. rewrite Hf. split; [done|lia].
  - erewrite run_short by eauto. eexists _, _. split; [done|].
    rewrite Hf. split; [done|lia].
Qed.


(** X5: an accepted object has the title, price, category and details it
    was given, [category] still [None], the prompt rendered from the text
    decoded from the first [MAX_TOKENS] tokens, and as [token_count] the
    number of tokens of the whole prompt; the tokenizer was called three
    times, to encode the text, decode its first tokens and encode the
    prompt. *)
Theorem accepted_item_fields data pr log0 item log :
  new_item data pr log0 = (Ok item, log) →
  include item = true →
  ∃ ttl mc dv contents rounded,
    data !! "title" = Some (VStr ttl) ∧
    data !! "main_category" = Some mc ∧
    data !! "details" = Some dv ∧
    parse_contents (blank (VStr ttl) pr mc) data
    = Ok (set_details dv (blank (VStr ttl) pr mc), contents) ∧
    py_round pr = Ok rounded ∧
    let s := candidate_text ttl contents in
    let ids := take MAX_TOKENS (encode s) in
    let p := rendered mc (decode ids) rounded in
    item = mkItem (VStr ttl) pr None (length (encode p)) dv (Some p) true mc ∧
    log = log0 ++ [Encode s; Decode ids; Encode p].
Proof.
  intros HB%init_Built Hi.
  destruct HB as [t mc self contents Et Emc Ec Hc
    |t mc self contents ttl Et Emc Ec Hc -> Hk
    |t mc self contents ttl r Et Emc Ec Hc -> Hk Er ids p].
  - apply parse_contents_fresh in Ec as (_ & _ & _ & Hf & _). congruence.
  - apply parse_contents_fresh in Ec as (_ & _ & _ & Hf & _). congruence.
  - destruct (parse_contents_self _ _ _ _ Ec) as (dv & Edv & ->).
    by exists ttl, mc, dv, contents, r.
Qed.

(** X6: what an accepted run decodes is the first tokens of the encoded
    text, more than [MIN_TOKENS] and at most [MAX_TOKENS] of them. *)
Theorem decoded_token_range data pr log0 item log :
  new_item data pr log0 = (Ok item, log) →
  include item = true →
  ∃ s ids p,
    log = log0 ++ [Encode s; Decode ids; Encode p] ∧
    ids `prefix_of` encode s ∧
    MIN_TOKENS < length ids ≤ MAX_TOKENS ∧
    length ids = length (encode s) `min` MAX_TOKENS.
Proof.
  intros HB%init_Built Hi.
  destruct HB as [t mc self contents Et Emc Ec Hc
    |t mc self contents ttl Et Emc Ec Hc -> Hk
    |t mc self contents ttl r Et Emc Ec Hc -> Hk Er ids p].
  - apply parse_contents_fresh in Ec as (_ & _ & _ & Hf & _). congruence.
  - apply parse_contents_fresh in Ec as (_ & _ & _ & Hf & _). congruence.
  - eexists _, ids, p. split; [done|]. unfold ids.
    split; [apply prefix_take|]. rewrite length_take.
    unfold MIN_TOKENS, MAX_TOKENS in *. lia.
Qed.

Lemma take_ceiling_gate (c1 c2 : text) :
  take CEILING_CHARS c1 = take CEILING_CHARS c2 →
  (MIN_CHARS < length c1 ↔ MIN_CHARS < length c2).
Proof.
  intros H%(f_equal length). rewrite !length_take in H.
  unfold CEILING_CHARS, MAX_TOKENS, MIN_CHARS in *. lia.
Qed.

(** X7: nothing of [contents] after its first [CEILING_CHARS] characters
    reaches the result: two records with the same title and category whose
    contents agree up to there get the same verdict, prompt and token
    count, with the same calls to the tokenizer. *)
Theorem ceiling_hides_the_rest data1 data2 pr log0 t mc self1 self2 c1 c2 item1 log :
  data1 !! "title" = Some t → data2 !! "title" = Some t →
  data1 !! "main_category" = Some mc → data2 !! "main_category" = Some mc →
  parse_contents (blank t pr mc) data1 = Ok (self1, c1) →
  parse_contents (blank t pr mc) data2 = Ok (self2, c2) →
  take CEILING_CHARS c1 = take CEILING_CHARS c2 →
  new_item data1 pr log0 = (Ok item1, log) →
  ∃ item2,
    new_item data2 pr log0 = (Ok item2, log) ∧
    include item2 = include item1 ∧ prompt item2 = prompt item1 ∧
    token_count item2 = token_count item1.
Proof.
  intros Et1 Et2 Emc1 Emc2 Ec1 Ec2 Htake Hrun.
  pose proof (take_ceiling_gate _ _ Htake) as Hgate.
  pose proof (parse_contents_fresh _ _ _ _ _ _ Ec1) as (_ & _ & _ & Hi1 & Hp1 & Hn1).
  pose proof (parse_contents_fresh _ _ _ _ _ _ Ec2) as (_ & _ & _ & Hi2 & Hp2 & Hn2).
  assert (∀ ttl, candidate_text ttl c1 = candidate_text ttl c2) as Hcand
    by (intros; unfold candidate_text; by rewrite Htake).
  destruct (Nat.ltb_spec MIN_CHARS (length c1)) as [Hc|Hc].
  - rewrite (run_long _ _ _ t mc self1 c1) in Hrun by done.
    rewrite (run_long _ _ _ t mc self2 c2) by (try done; by apply Hgate).
    destruct t as [|ttl|]; [done| |done]. cbv zeta in *.
    rewrite <- Hcand. destruct (_ <? _).
    + destruct (py_round pr); [|done].
      apply Ok_pair_inj in Hrun as [<- <-]. by eexists.
    + apply Ok_pair_inj in Hrun as [<- <-]. exists self2. by rewrite Hi1, Hp1, Hn1.
  - rewrite (run_short _ _ _ _ _ _ _ t mc self1 c1) in Hrun by done.
    apply Ok_pair_inj in Hrun as [<- <-]. exists self2.
    split; [|by rewrite Hi1, Hp1, Hn1].
    eapply run_short; eauto. lia.
Qed.


(** X8: [test_prompt] works exactly on the accepted objects: it returns a
    text for an object the constructor accepted, and raises
    [AttributeError] (the prompt is [None]) for one it rejected. *)
Theorem test_prompt_needs_acceptance data pr log0 item log :
  new_item data pr log0 = (Ok item, log) →
  (include item = true → ∃ t, test_prompt item = Ok t)
  ∧ (include item = false → test_prompt item = Raise AttributeError).
Proof.
  intros HB%init_Built.
  destruct HB as [t mc self contents Et Emc Ec Hc
    |t mc self contents ttl Et Emc Ec Hc -> Hk
    |t mc self contents ttl r Et Emc Ec Hc -> Hk Er ids p].
  - apply parse_contents_fresh in Ec as (_ & _ & _ & Hf & Hp & _).
    unfold test_prompt. rewrite Hp, Hf. by split.
  - apply parse_contents_fresh in Ec as (_ & _ & _ & Hf & Hp & _).
    unfold test_prompt. rewrite Hp, Hf. by split.
  - split; [intros _|done]. unfold test_prompt. cbn [prompt set_include set_token_count set_prompt].
    change (Py.split PREFIX p) with (Py.split_from 80%N (T "rice is $") p).
    destruct (split_from_cons 80%N (T "rice is $") p) as (w & ws & ->). eauto.
Qed.

End ConstructorMore.

(** * Further properties of [test_prompt] *)

Section TestPromptMore.

(** X9: on any object that has a prompt, [test_prompt] returns the part of
    the prompt before the leftmost [PREFIX], which holds no [PREFIX], and
    [PREFIX] after it; a prompt without [PREFIX] is returned whole, with
    [PREFIX] appended. *)
Theorem test_prompt_of_any_prompt self p :
  prompt self = Some p →
  ∃ a, test_prompt self = Ok (a ++ PREFIX) ∧
       a `prefix_of` p ∧ ¬ occurs PREFIX a ∧
       (¬ occurs PREFIX p → a = p) ∧
       (occurs PREFIX p → (a ++ PREFIX) `prefix_of` p).
Proof.
  intros Hp. unfold test_prompt. rewrite Hp.
  change (Py.split PREFIX p) with (Py.split_from 80%N (T "rice is $") p).
  rewrite split_from_eq. change (80%N :: T "rice is $") with PREFIX.
  destruct (Py.partition PREFIX p) as [[a b]|] eqn:E.
  - exists a. cbn [fst]. pose proof (Py.partition_app _ _ _ _ E) as Hab.
    repeat apply conj.
    + done.
    + by eexists.
    + intros (x & y & Hx).
      destruct (partition_leftmost PREFIX p x (y ++ PREFIX ++ b)) as (a' & b' & E' & Hlen).
      { rewrite Hab, Hx. by rewrite <- !(assoc_L (++)). }
      assert (a' = a) as -> by congruence.
      rewrite Hx, !length_app in Hlen. change (length PREFIX) with 10 in Hlen. lia.
    + intros Hno. destruct Hno. by exists a, b.
    + intros _. exists b. by rewrite <- (assoc_L (++)).
  - exists p. apply partition_None in E. by split_and!.
Qed.

End TestPromptMore.

(** * Further properties of [contents] *)

Section ContentsMore.

Lemma join_chars_spelled (s : text) :
  s ≠ [] →
  Py.join [NL] ((λ c, [c]) <$> s) ++ [NL] = concat ((λ c, [c; NL]) <$> s).
Proof.
  induction s as [|c s IH]; [done|]. intros _.
  destruct s as [|c' s]; [done|].
  rewrite !fmap_cons.
  change (Py.join [NL] ([c] :: [c'] :: ((λ c, [c]) <$> s)))
    with ([c] ++ [NL] ++ Py.join [NL] ((λ c, [c]) <$> (c' :: s))).
  rewrite <- !(assoc_L (++)), IH by done. reflexivity.
Qed.

Lemma first_block l :
  (if bool_decide (Py.join [NL] l = []) then Py.join [NL] l else Py.join [NL] l ++ [NL])
  = text_block l.
Proof. unfold text_block. cbv zeta. case_bool_decide; congruence. Qed.

(** X10: [contents] is empty or ends with a newline, whatever the fields
    hold. *)
Theorem contents_end_with_newline self data self' contents :
  parse_contents self data = Ok (self', contents) →
  contents = [] ∨ last contents = Some NL.
Proof.
  unfold parse_contents, mbind, result_bind, mret, result_ret, getitem.
  destruct (data !! "description") as [dsc|]; [|done].
  destruct (join_value [NL] dsc) as [jd|]; [|done].
  destruct (data !! "features") as [ft|]; [|done].
  destruct (join_value [NL] ft) as [jf|]; [|done].
  destruct (data !! "details") as [dv|]; [|done].
  destruct (truthy dv).
  - destruct (scrub_details _) as [sd|]; [|done]. intros [_ <-]%Ok_inj. right.
    by rewrite app_assoc, last_snoc.
  - intros [_ <-]%Ok_inj. repeat case_bool_decide; subst; auto; right;
      by rewrite ?app_assoc, last_snoc.
Qed.

(** X11: a field given as one [str] instead of a list of them is joined
    character by character: [features] of [n] characters adds [2 * n]
    characters to [contents], each character followed by a newline. *)
Theorem str_field_is_spelled self data d s dv :
  data !! "description" = Some (VList d) →
  data !! "features" = Some (VStr s) →
  data !! "details" = Some dv →
  truthy dv = false →
  parse_contents self data
  = Ok (set_details dv self, text_block d ++ concat ((λ c, [c; NL]) <$> s)).
Proof.
  intros Ed Ef Edv Hdv.
  unfold parse_contents, mbind, result_bind, mret, result_ret, getitem, join_value.
  rewrite Ed, Ef, Edv, Hdv. cbv zeta. rewrite first_block.
  destruct s as [|c s].
  - cbn. by rewrite app_nil_r.
  - rewrite <- join_chars_spelled by done.
    rewrite bool_decide_eq_false_2; [done|].
    destruct s; discriminate.
Qed.

(** X12: of [details], only a non-empty [str] adds to [contents], with its
    removal strings deleted and a newline after it; [None], the empty
    [str] and the empty list add nothing, and a non-empty list raises
    [AttributeError]. *)
Theorem details_by_kind self data d f dv :
  data !! "description" = Some (VList d) →
  data !! "features" = Some (VList f) →
  data !! "details" = Some dv →
  parse_contents self data =
  match dv with
  | VStr (c :: s) =>
      Ok (set_details dv self,
          text_block d ++ text_block f ++ delete_all REMOVALS (c :: s) ++ [NL])
  | VList (_ :: _) => Raise AttributeError
  | _ => Ok (set_details dv self, text_block d ++ text_block f)
  end.
Proof.
  intros Ed Ef Edv. rewrite (parse_contents_lists _ _ d f dv) by done.
  destruct dv as [|[|c s]|[|x l]]; reflexivity.
Qed.

End ContentsMore.

(** * Further properties of [scrub] *)

Section ScrubMore.
Variable isdigit : char → bool.

(** X13: [scrub] never makes a text longer. *)
Theorem scrub_never_longer x : length (scrub isdigit x) ≤ length x.
Proof.
  unfold scrub. etrans; [apply join_filter_length|].
  change (T " ") with [SP]. rewrite join_split_char.
  etrans; [apply replace_length; [done|simpl; lia]|].
  etrans; [apply replace_length; [done|simpl; lia]|].
  etrans; [apply replace_length; [done|simpl; lia]|].
  etrans; [apply strip_length|].
  unfold re_sub_class. by rewrite length_fmap.
Qed.

(** X14: no word of the result of [scrub] has seven or more characters and
    a digit among them. *)
Theorem scrub_drops_long_words_with_digits x w :
  w ∈ Py.split (T " ") (scrub isdigit x) →
  length w < 7 ∨ Forall (λ c, isdigit c = false) w.
Proof.
  intros Hw. assert (keep_word isdigit w = true) as Hk.
  { rewrite scrub_join in Hw. change (T " ") with [SP] in Hw.
    destruct (scrub_words isdigit x) as [|w0 ws] eqn:E.
    - change (w ∈ [[] : text]) in Hw.
      apply list_elem_of_singleton in Hw as ->. done.
    - rewrite split_join_char in Hw; [|done|rewrite <- E; apply scrub_words_no_space].
      pose proof (scrub_words_kept isdigit x) as Hkept. rewrite E in Hkept.
      by eapply Forall_forall in Hkept. }
  unfold keep_word in Hk. apply orb_true_iff in Hk as [Hl|Hd].
  - left. by apply Nat.ltb_lt.
  - right. apply negb_true_iff in Hd. apply Forall_forall. intros c Hc.
    destruct (isdigit c) eqn:Ec; [|done].
    assert (existsb isdigit w = true); [|congruence].
    apply existsb_exists. exists c. split; [by apply list_elem_of_In|done].
Qed.

Lemma lstrip_blank s : Forall (λ c, Py.isspace c = true) s → Py.lstrip s = [].
Proof. induction 1 as [|c s Hc _ IH]; [done|]. simpl. by rewrite Hc. Qed.

(** X15: a text made only of whitespace and of the characters
    [: [ ] { }] is scrubbed to the empty text. *)
Theorem scrub_blank_is_empty x :
  Forall (λ c, in_class c = true) x → scrub isdigit x = [].
Proof.
  intros Hx. unfold scrub.
  assert (Py.strip (re_sub_class x) = []) as ->; [|done].
  unfold Py.strip. rewrite lstrip_blank; [done|].
  unfold re_sub_class. apply Forall_fmap. eapply Forall_impl; [done|].
  intros c Hc. simpl. by rewrite Hc.
Qed.

End ScrubMore.

Section ScrubClean.
Variable isdigit : char → bool.

Lemma join_words_last (ws : list text) :
  Forall (λ w, w ≠ [] ∧ SP ∉ w) ws → last (Py.join [SP] ws) ≠ Some SP.
Proof.
  induction 1 as [|w ws [Hw Hsp] Hws IH]; [done|].
  destruct ws as [|w' ws].
  - simpl. intros Hl%last_Some_elem_of. done.
  - change (Py.join [SP] (w :: w' :: ws)) with (w ++ SP :: Py.join [SP] (w' :: ws)).
    rewrite last_app, last_cons.
    destruct (last (Py.join [SP] (w' :: ws))) as [c|] eqn:E; [done|].
    apply last_None in E. apply Forall_cons in Hws as [[Hw' _] _].
    destruct ws; simpl in E; [done|]. by destruct w'.
Qed.

Lemma join_words_head (ws : list text) :
  Forall (λ w, w ≠ [] ∧ SP ∉ w) ws → head (Py.join [SP] ws) ≠ Some SP.
Proof.
  destruct 1 as [|w ws [Hw Hsp] Hws]; [done|].
  destruct w as [|c w]; [done|].
  assert (head (Py.join [SP] ((c :: w) :: ws)) = Some c) as ->
    by by destruct ws.
  intros [= ->]. apply Hsp. left.
Qed.

(** X16: a text of non-empty words that hold no character of the class,
    with one space between them, no word of seven or more characters with
    a digit, and neither [" ,"] nor [",,"] in it, is returned by [scrub] as
    it is. *)
Theorem scrub_keeps_clean_text (ws : list text) :
  Forall (λ w, w ≠ [] ∧ keep_word isdigit w = true ∧
               Forall (λ c, in_class c = false) w) ws →
  ¬ occurs (T " ,") (Py.join [SP] ws) →
  ¬ occurs (T ",,") (Py.join [SP] ws) →
  scrub isdigit (Py.join [SP] ws) = Py.join [SP] ws.
Proof.
  intros Hws Hsc Hcc.
  assert (Forall (λ w, w ≠ [] ∧ SP ∉ w) ws) as Hsp.
  { eapply Forall_impl; [exact Hws|]. intros w (Hw & _ & Hcl). split; [done|].
    intros Hin. rewrite Forall_forall in Hcl. specialize (Hcl SP Hin).
    by vm_compute in Hcl. }
  apply scrub_fixed; try done.
  - apply Forall_join; [by repeat constructor|].
    eapply Forall_impl; [exact Hws|]. intros w (_ & _ & Hcl).
    eapply Forall_impl; [exact Hcl|]. intros c Hc. unfold tidy. congruence.
  - eapply Forall_impl; [exact Hsp|]. by intros w [_ ?].
  - eapply Forall_impl; [exact Hws|]. by intros w (_ & ? & _).
  - by apply join_words_head.
  - by apply join_words_last.
Qed.

(** X17: the text given to the tokenizer has one newline, the one between
    the scrubbed title and the scrubbed contents. *)
Theorem candidate_text_one_newline ttl contents :
  ∃ a b, candidate_text isdigit ttl contents = a ++ NL :: b ∧ (NL ∉ a) ∧ (NL ∉ b).
Proof.
  assert (∀ x, NL ∉ scrub isdigit x) as Hno.
  { intros x Hin. pose proof (scrub_tidy isdigit x) as Ht.
    eapply Forall_forall in Ht; [|done]. by specialize (Ht eq_refl). }
  eexists _, _. split; [reflexivity|]. split; apply Hno.
Qed.

End ScrubClean.

(** * Further properties of [scrub_details] *)

Section RemovalMore.

Lemma replace_delete_sublist old s : old ≠ [] → Py.replace old [] s `sublist_of` s.
Proof.
  destruct old as [|o old']; [done|]. intros _. unfold Py.replace.
  induction s as [s IH] using (induction_ltof1 _ (@length char)).
  rewrite replace_from_eq.
  destruct (Py.partition (o :: old') s) as [[a b]|] eqn:E; [|done].
  pose proof (Py.partition_shorter _ _ _ _ _ E) as Hlt.
  apply Py.partition_app in E as ->. cbn [fst snd].
  apply sublist_app; [done|]. apply (sublist_inserts_l (o :: old')). by apply IH.
Qed.

Lemma delete_all_sublist removals d :
  Forall (λ r, r ≠ []) removals → delete_all removals d `sublist_of` d.
Proof.
  intros Hne. revert d. induction Hne as [|r rs Hr _ IH]; intros d; [done|].
  change (delete_all (r :: rs) d) with (delete_all rs (Py.replace r [] d)).
  etrans; [apply IH|]. by apply replace_delete_sublist.
Qed.

(** X18: [scrub_details] only deletes: its result is what is left of the
    details after striking characters out, in the same order. *)
Theorem scrub_details_only_deletes self d :
  details self = VStr d →
  ∃ out, scrub_details self = Ok out ∧ out `sublist_of` d.
Proof.
  intros Hd. rewrite (scrub_details_eq _ _ Hd). eexists. split; [done|].
  apply delete_all_sublist, REMOVALS_nonempty.
Qed.

(** X19: [scrub_details] returns the details unchanged exactly when none
    of the removal strings occurs in them. *)
Theorem scrub_details_untouched self d :
  details self = VStr d →
  scrub_details self = Ok d ↔ ∀ r, r ∈ REMOVALS → ¬ occurs r d.
Proof.
  intros Hd. rewrite (scrub_details_eq _ _ Hd), <- Forall_forall.
  rewrite <- (delete_all_fixed REMOVALS d REMOVALS_nonempty).
  split; [intros H; congruence|by intros ->].
Qed.

End RemovalMore.

Section RemovalOrder.

Lemma delete_all_app l1 l2 d :
  delete_all (l1 ++ l2) d = delete_all l2 (delete_all l1 d).
Proof. unfold delete_all. by rewrite foldl_app. Qed.

(** X20: the last removal, ["Is Discontinued By Manufacturer"], comes after
    ["Manufacturer"] in the list and so deletes nothing, unless the three
    removals before it leave a ["Manufacturer"] in the text: otherwise the
    result is theirs, and the words ["Is Discontinued By "] stay. *)
Theorem last_removal_shadowed self d :
  details self = VStr d →
  ¬ occurs (T "Manufacturer") (delete_all (take 3 REMOVALS) d) →
  scrub_details self = Ok (delete_all (take 3 REMOVALS) d).
Proof.
  intros Hd Hno. rewrite (scrub_details_eq _ _ Hd).
  change REMOVALS with (take 3 REMOVALS ++ [T "Is Discontinued By Manufacturer"]).
  rewrite delete_all_app. set (d3 := delete_all (take 3 REMOVALS) d) in *.
  change (delete_all [T "Is Discontinued By Manufacturer"] d3)
    with (Py.replace (T "Is Discontinued By Manufacturer") [] d3).
  rewrite replace_absent; [done|done|].
  intros (a & b & Hab). apply Hno. exists (a ++ T "Is Discontinued By "), b.
  rewrite Hab, <- !(assoc_L (++)). reflexivity.
Qed.

End RemovalOrder.

Section RoundMore.
Local Open Scope Z_scope.

(** X21: [round] of a finite float is the integer nearest to it, with the
    sign of the float, the even one of the two when it is half-way between
    them; a float that is an integer is returned as it is. *)
Theorem py_round_nearest s m e :
  ∃ n, py_round (S754_finite s m e) = Ok (if s then - n else n) ∧ 0 ≤ n ∧
       match e with
       | Zneg k =>
           2 * Z.abs (Zpos m - n * 2 ^ Zpos k) ≤ 2 ^ Zpos k ∧
           (2 * Z.abs (Zpos m - n * 2 ^ Zpos k) = 2 ^ Zpos k → Z.even n = true)
       | _ => n = Zpos m * 2 ^ e
       end.
Proof.
  destruct e as [|k|k]; simpl py_round.
  - eexists. split; [done|]. split; [lia|done].
  - eexists. split; [done|]. split; [|done].
    pose proof (Z.pow_pos_nonneg 2 (Zpos k)). lia.
  - exists (round_half_even (Zpos m) (2 ^ Zpos k)). split; [done|].
    assert (0 < 2 ^ Zpos k) as Hd by (apply Z.pow_pos_nonneg; lia).
    pose proof (round_half_even_nearest (Zpos m) _ Hd) as Hnear.
    split_and!; [|done|].
    + unfold round_half_even.
      pose proof (Z.div_pos (Zpos m) (2 ^ Zpos k) ltac:(lia) Hd).
      repeat case_match; lia.
    + intros Htie. apply round_half_even_tie; [done|].
      revert Htie. unfold round_half_even.
      pose proof (Z.div_mod (Zpos m) (2 ^ Zpos k) ltac:(lia)) as Hm.
      pose proof (Z.mod_pos_bound (Zpos m) (2 ^ Zpos k) Hd) as Hr.
      repeat case_match; rewrite ?Z.ltb_lt, ?Z.ltb_ge in *; nia.
Qed.

End RoundMore.

Section FieldsMore.
Variable encode : text → list token.
Variable decode : list token → text.
Variable isdigit : char → bool.
Variable repr_list : list text → text.

#[local] Abbreviation new_item := (init encode decode isdigit repr_list).

(** X22: [None] for [description], or for [features], cannot be joined:
    the constructor raises [TypeError], before any call to the tokenizer. *)
Theorem none_field_raises data pr log0 t mc :
  data !! "title" = Some t →
  data !! "main_category" = Some mc →
  data !! "description" = Some VNone
  ∨ (∃ v, data !! "description" = Some v ∧ v ≠ VNone ∧ data !! "features" = Some VNone) →
  init encode decode isdigit repr_list data pr log0 = (Raise TypeError, log0).
Proof.
  intros Et Emc Hnone.
  unfold init, parse, mbind, M_bind, lift, getitem. rewrite Et, Emc.
  assert (parse_contents (blank t pr mc) data = Raise TypeError) as ->; [|done].
  unfold parse_contents, mbind, result_bind, mret, result_ret, getitem.
  destruct Hnone as [->|(v & -> & Hv & ->)]; [done|]. by destruct v.
Qed.

End FieldsMore.

(** * The further properties on examples *)


Lemma title_checked_late_witness :
  init char_encode char_decode ascii_isdigit no_repr
    (untitled_record [long_word]) example_price []
  = (if MIN_CHARS <? length example_contents
     then (Raise TypeError, [])
     else (Ok (blank VNone example_price (VStr example_category)), [])).
Proof.
  apply (title_checked_late char_encode char_decode ascii_isdigit no_repr
           (untitled_record [long_word]) example_price [] VNone (VStr example_category)).
  - vm_compute. reflexivity.
  - vm_compute. reflexivity.
  - vm_compute. reflexivity.
  - discriminate.
Defined.

Lemma bad_price_raises_late_witness :
  init char_encode char_decode ascii_isdigit no_repr
    (example_record [long_word]) S754_nan []
  = (if (MIN_CHARS <? length example_contents)
        && (MIN_TOKENS <? length (char_encode
                                    (candidate_text ascii_isdigit example_title
                                       example_contents)))
     then (Raise ValueError,
           [] ++ [Encode (candidate_text ascii_isdigit example_title example_contents);
                  Decode (take MAX_TOKENS
                            (char_encode (candidate_text ascii_isdigit example_title
                                            example_contents)))])
     else if MIN_CHARS <? length example_contents
          then (Ok (blank (VStr example_title) S754_nan (VStr example_category)),
                [] ++ [Encode (candidate_text ascii_isdigit example_title
                                 example_contents)])
          else (Ok (blank (VStr example_title) S754_nan (VStr example_category)), [])).
Proof.
  apply (bad_price_raises_late char_encode char_decode ascii_isdigit no_repr
           (example_record [long_word]) S754_nan [] example_title
           (VStr example_category)).
  - vm_compute. reflexivity.
  - vm_compute. reflexivity.
  - vm_compute. reflexivity.
  - reflexivity.
Defined.

Lemma verdict_characterised_witness :
  ∃ item log,
    example_run (example_record [long_word]) = (Ok item, log) ∧
    (include item = true ↔
     MIN_CHARS < length example_contents ∧
     MIN_TOKENS < length (char_encode (candidate_text ascii_isdigit example_title
                                         example_contents))).
Proof.
  apply (verdict_characterised char_encode char_decode ascii_isdigit no_repr
           (example_record [long_word]) example_price [] example_title
           (VStr example_category) example_self example_contents 122%Z);
    vm_compute; reflexivity.
Defined.

Lemma accepted_item_fields_witness :
  ∃ ttl mc dv contents rounded,
    example_record [long_word] !! "title" = Some (VStr ttl) ∧
    example_record [long_word] !! "main_category" = Some mc ∧
    example_record [long_word] !! "details" = Some dv ∧
    parse_contents (blank (VStr ttl) example_price mc) (example_record [long_word])
    = Ok (set_details dv (blank (VStr ttl) example_price mc), contents) ∧
    py_round example_price = Ok rounded ∧
    let s := candidate_text ascii_isdigit ttl contents in
    let ids := take MAX_TOKENS (char_encode s) in
    let p := rendered no_repr mc (char_decode ids) rounded in
    example_item
    = mkItem (VStr ttl) example_price None (length (char_encode p)) dv (Some p) true mc ∧
    example_log = [] ++ [Encode s; Decode ids; Encode p].
Proof.
  apply (accepted_item_fields char_encode char_decode ascii_isdigit no_repr
           (example_record [long_word]) example_price [] example_item example_log).
  - vm_compute. reflexivity.
  - reflexivity.
Defined.

Lemma decoded_token_range_witness :
  ∃ s ids p,
    example_log = [] ++ [Encode s; Decode ids; Encode p] ∧
    ids `prefix_of` char_encode s ∧
    MIN_TOKENS < length ids ≤ MAX_TOKENS ∧
    length ids = length (char_encode s) `min` MAX_TOKENS.
Proof.
  apply (decoded_token_range char_encode char_decode ascii_isdigit no_repr
           (example_record [long_word]) example_price [] example_item example_log).
  - vm_compute. reflexivity.
  - reflexivity.
Defined.

Lemma ceiling_hides_the_rest_witness :
  ∃ item2,
    example_run (example_record [very_long_word ++ T "1234567"])
    = (Ok item2, example_log_beyond) ∧
    include item2 = include example_item_beyond ∧
    prompt item2 = prompt example_item_beyond ∧
    token_count item2 = token_count example_item_beyond.
Proof.
  apply (ceiling_hides_the_rest char_encode char_decode ascii_isdigit no_repr
           (example_record [very_long_word ++ T "x"])
           (example_record [very_long_word ++ T "1234567"])
           example_price [] (VStr example_title) (VStr example_category)
           example_self example_self
           ((very_long_word ++ T "x") ++ [NL])
           ((very_long_word ++ T "1234567") ++ [NL]));
    vm_compute; reflexivity.
Defined.

Lemma test_prompt_needs_acceptance_witness :
  (include example_rejected = true → ∃ t, test_prompt example_rejected = Ok t)
  ∧ (include example_rejected = false → test_prompt example_rejected = Raise AttributeError).
Proof.
  apply (test_prompt_needs_acceptance char_encode char_decode ascii_isdigit no_repr
           (example_record []) example_price [] example_rejected []).
  vm_compute. reflexivity.
Defined.

Lemma test_prompt_of_any_prompt_witness :
  ∃ a, test_prompt (set_prompt (Some (T "no price here")) example_self)
       = Ok (a ++ PREFIX) ∧
       a `prefix_of` T "no price here" ∧ ¬ occurs PREFIX a ∧
       (¬ occurs PREFIX (T "no price here") → a = T "no price here") ∧
       (occurs PREFIX (T "no price here") → (a ++ PREFIX) `prefix_of` T "no price here").
Proof.
  apply (test_prompt_of_any_prompt (set_prompt (Some (T "no price here")) example_self)).
  reflexivity.
Defined.

Lemma contents_end_with_newline_witness :
  example_contents = [] ∨ last example_contents = Some NL.
Proof.
  apply (contents_end_with_newline example_self (example_record [long_word]) example_self).
  vm_compute. reflexivity.
Defined.

Lemma str_field_is_spelled_witness :
  parse_contents example_self str_features_record
  = Ok (set_details VNone example_self,
        text_block [T "The Dell Inspiron 14"]
          ++ concat ((λ c, [c; NL]) <$> T "Intel Core")).
Proof.
  apply (str_field_is_spelled example_self str_features_record
           [T "The Dell Inspiron 14"] (T "Intel Core") VNone);
    vm_compute; reflexivity.
Defined.

Lemma details_by_kind_witness :
  parse_contents example_self list_details_record = Raise AttributeError.
Proof.
  apply (details_by_kind example_self list_details_record [long_word] []
           (VList [T "Manufacturer: Dell"]));
    vm_compute; reflexivity.
Defined.

Lemma scrub_drops_long_words_with_digits_witness :
  length (T "Dell") < 7 ∨ Forall (λ c, ascii_isdigit c = false) (T "Dell").
Proof.
  apply (scrub_drops_long_words_with_digits ascii_isdigit (T "Dell ABC123456 laptop")).
  vm_compute. left.
Defined.

Lemma scrub_blank_is_empty_witness : scrub ascii_isdigit (T " [ ]{}: ") = [].
Proof.
  apply scrub_blank_is_empty. vm_compute. repeat constructor.
Defined.

Lemma scrub_keeps_clean_text_witness :
  scrub ascii_isdigit (Py.join [SP] [T "Dell"; T "Laptop,"; T "14"; T "inches"])
  = Py.join [SP] [T "Dell"; T "Laptop,"; T "14"; T "inches"].
Proof.
  apply scrub_keeps_clean_text.
  - repeat constructor; (done || (vm_compute; repeat constructor)).
  - apply partition_None. vm_compute. reflexivity.
  - apply partition_None. vm_compute. reflexivity.
Defined.

Lemma scrub_details_only_deletes_witness :
  ∃ out, scrub_details (set_details (VStr example_details) example_self) = Ok out
         ∧ out `sublist_of` example_details.
Proof.
  apply (scrub_details_only_deletes (set_details (VStr example_details) example_self)).
  reflexivity.
Defined.

Lemma scrub_details_untouched_witness :
  scrub_details (set_details (VStr (T "Weight: 3 pounds")) example_self)
  = Ok (T "Weight: 3 pounds")
  ↔ ∀ r, r ∈ REMOVALS → ¬ occurs r (T "Weight: 3 pounds").
Proof.
  apply (scrub_details_untouched (set_details (VStr (T "Weight: 3 pounds")) example_self)).
  reflexivity.
Defined.

Lemma last_removal_shadowed_witness :
  scrub_details (set_details (VStr example_details) example_self)
  = Ok (delete_all (take 3 REMOVALS) example_details).
Proof.
  apply (last_removal_shadowed (set_details (VStr example_details) example_self)).
  - reflexivity.
  - apply partition_None. vm_compute. reflexivity.
Defined.

(** What is left of [example_details]: the words of the last removal
    stay. *)
Lemma example_details_scrubbed :
  scrub_details (set_details (VStr example_details) example_self)
  = Ok (T ": Dell, Is Discontinued By : No, Weight: 3 pounds").
Proof. vm_compute. reflexivity. Qed.

Lemma none_field_raises_witness :
  init char_encode char_decode ascii_isdigit no_repr
    none_description_record example_price []
  = (Raise TypeError, []).
Proof.
  apply (none_field_raises char_encode char_decode ascii_isdigit no_repr
           none_description_record example_price []
           (VStr example_title) (VStr example_category)).
  - vm_compute. reflexivity.
  - vm_compute. reflexivity.
  - left. vm_compute. reflexivity.
Defined.
